(** * CameraCalibration: a shallow embedding of
      [cameraCalibrationWithUndistortion.cpp]

    The program enumerates the images of a directory, detects a checkerboard
    in each of them, refines the detected corners, hands all the
    correspondences to the calibration solver of the vision library,
    evaluates the reprojection error and writes a JSON record.

    The vision library, the file system and the display are outside the
    repository.  They are gathered in a record [Env] of oracles; what the
    program asks of them is written as explicit contracts ([solver_poses],
    [detector_full], ...), which theorems take as hypotheses.  Every call of
    an oracle, every line printed and every effect on the file system is
    recorded in a trace of [event]s, so that statements such as "the solver
    is never invoked" or "no artifact is written" are statements about the
    trace.

    Numbers are the ones of the program: [int] is a 32-bit two's complement
    integer carried by [Z], [float] and [double] are IEEE 754 binary32 and
    binary64 values in the representation of [SpecFloat]. *)

From Stdlib Require Import ZArith String Ascii List Bool Lia.
From Stdlib Require Import SpecFloat.
Import ListNotations.

Local Open Scope string_scope.
Local Open Scope list_scope.
Local Open Scope Z_scope.

(** ** Machine numbers *)

Definition INT_MIN : Z := - 2 ^ 31.
Definition INT_MAX : Z := 2 ^ 31 - 1.
Definition SIZE_MAX : Z := 2 ^ 64 - 1.

(** Conversion of an integer value to [int] (modular, as C++20 fixes it and
    as every mainstream compiler did before). *)
Definition to_int (z : Z) : Z := (z + 2 ^ 31) mod 2 ^ 32 - 2 ^ 31.

(** [float]: IEEE 754 binary32. *)
Module F32.
Definition t : Type := spec_float.
Definition prec : Z := 24.
Definition emax : Z := 128.
(** [int] to [float], round to nearest even. *)
Definition of_int (z : Z) : t := binary_normalize prec emax z 0 false.
End F32.

(** [double]: IEEE 754 binary64. *)
Module F64.
Definition t : Type := spec_float.
Definition prec : Z := 53.
Definition emax : Z := 1024.
Definition zero : t := S754_zero false.
Definition add (a b : t) : t := SFadd prec emax a b.
Definition div (a b : t) : t := SFdiv prec emax a b.
Definition leb (a b : t) : bool := SFleb a b.
Definition eqb (a b : t) : bool := SFeqb a b.
(** [size_t] to [double], round to nearest even. *)
Definition of_size (n : nat) : t := binary_normalize prec emax (Z.of_nat n) 0 false.
Definition of_Z (z : Z) : t := binary_normalize prec emax z 0 false.
(** [double] to [bool]: every value that does not compare equal to zero
    is [true]; in particular a NaN is [true]. *)
Definition to_bool (d : t) : bool := negb (eqb d zero).
(** [0 <= d] as the comparison [<=] of the language decides it: false on a
    NaN. *)
Definition nonneg (d : t) : Prop := leb zero d = true.
End F64.

(** Not a NaN, and the sign bit is clear. *)
Definition unsigned (x : spec_float) : Prop :=
  match x with
  | S754_nan => False
  | S754_zero s | S754_infinity s | S754_finite s _ _ => s = false
  end.

(** The floating-point value [x] is the integer [z], exactly. *)
Definition represents (x : spec_float) (z : Z) : Prop :=
  match x with
  | S754_zero _ => z = 0
  | S754_finite s m e =>
      e <= 0 /\ (if s then - Z.pos m else Z.pos m) = z * 2 ^ (- e)
  | _ => False
  end.

(** ** Data of the vision library that the program handles *)

(** [cv::Size]: two [int]s. *)
Record Size : Type := mkSize { width : Z; height : Z }.

Record Point2f : Type := mkPoint2f { p2x : F32.t; p2y : F32.t }.
Record Point3f : Type := mkPoint3f { p3x : F32.t; p3y : F32.t; p3z : F32.t }.

(** A [cv::Mat] that holds pixels: the program reads its dimensions, asks
    whether it is empty and passes it on. *)
Record Image : Type := mkImage { img_rows : Z; img_cols : Z; img_data : list Z }.

(** [cv::Mat::empty]: no data or no element. *)
Definition img_empty (m : Image) : bool :=
  match img_data m with
  | [] => true
  | _ :: _ => (img_rows m * img_cols m =? 0)
  end.

(** A [cv::Mat] of [double]s, stored row after row. *)
Record Mat : Type := mkMat { rows : Z; cols : Z; elems : list F64.t }.

Definition emptyMat : Mat := mkMat 0 0 [].

(** [m.at<double>(i, j)].  The language leaves a read outside the matrix
    undefined; the model answers a NaN there. *)
Definition mat_at (m : Mat) (i j : Z) : F64.t :=
  if (0 <=? i) && (i <? rows m) && (0 <=? j) && (j <? cols m)
  then nth (Z.to_nat (i * cols m + j)) (elems m) S754_nan
  else S754_nan.

(** [cv::TermCriteria]. *)
Record TermCriteria : Type :=
  mkTermCriteria { tc_type : Z; tc_maxCount : Z; tc_epsilon : F64.t }.

(** Constants of the library headers that the program names. *)
Definition TermCriteria_MAX_ITER : Z := 1.
Definition TermCriteria_EPS : Z := 2.
Definition CALIB_CB_ADAPTIVE_THRESH : Z := 1.
Definition CALIB_CB_NORMALIZE_IMAGE : Z := 2.
Definition CALIB_CB_FAST_CHECK : Z := 8.

Inductive NormType : Type := NORM_L2.

(** What [cv::calibrateCamera] hands back: its return value (the overall
    RMS reprojection error, a [double]) and its four output arguments. *)
Record SolverOut : Type := mkSolverOut {
  so_rms : F64.t;
  so_cameraMatrix : Mat;
  so_distCoeffs : Mat;
  so_rvecs : list Mat;
  so_tvecs : list Mat
}.

(** ** The environment: file system, vision library, display *)

Record Env : Type := mkEnv {
  (** [std::filesystem::exists]: its answer, or [None] when it throws
      [filesystem_error] because the path cannot be examined (a name that
      is too long, a parent directory that cannot be searched, ...) *)
  fs_exists : string -> option bool;
  (** [std::filesystem::create_directories]: [true] when it returns, the
      directory and every missing ancestor being there afterwards; [false]
      when it throws, some of the ancestors possibly made *)
  fs_create_directories : string -> bool;
  (** whether [std::ofstream file(path)] ends up open *)
  fs_open_write : string -> bool;
  (** [cv::glob(pattern, result)] *)
  cv_glob : string -> list string;
  (** [cv::imread] *)
  cv_imread : string -> Image;
  (** [cv::cvtColor(frame, gray, COLOR_BGR2GRAY)] *)
  cv_cvtColor : Image -> Image;
  (** [cv::findChessboardCorners(gray, patternSize, corners, flags)]: the
      return value and the corners it leaves in its output argument *)
  cv_findChessboardCorners : Image -> Size -> Z -> bool * list Point2f;
  (** [cv::cornerSubPix(gray, corners, winSize, zeroZone, criteria)]: the
      corners it leaves in its in/out argument *)
  cv_cornerSubPix : Image -> list Point2f -> Size -> Size -> TermCriteria -> list Point2f;
  (** [cv::calibrateCamera(objpoints, imgpoints, imageSize, ...)] *)
  cv_calibrateCamera : list (list Point3f) -> list (list Point2f) -> Size -> SolverOut;
  (** [cv::projectPoints(objectPoints, rvec, tvec, cameraMatrix, distCoeffs, imagePoints)] *)
  cv_projectPoints : list Point3f -> Mat -> Mat -> Mat -> Mat -> list Point2f;
  (** [cv::norm(a, b, normType)] *)
  cv_norm : list Point2f -> list Point2f -> NormType -> F64.t;
  (** [cv::getOptimalNewCameraMatrix(K, D, imageSize, alpha, newImgSize, validPixROI)] *)
  cv_getOptimalNewCameraMatrix : Mat -> Mat -> Size -> F64.t -> Size -> Mat;
  (** [cv::undistort(src, dst, K, D, newK)] *)
  cv_undistort : Image -> Mat -> Mat -> Mat -> Image
}.

(** OpenCV documents the [winSize] argument of [cornerSubPix] as half of the
    side length of the search window: with [winSize = Size(5,5)] a
    (5*2+1) x (5*2+1) = 11 x 11 window is searched. *)
Definition searchWindow (winSize : Size) : Size :=
  mkSize (2 * width winSize + 1) (2 * height winSize + 1).

(** ** The record the program computes *)

Record CalibrationResults : Type := mkResults {
  cameraMatrix : Mat;
  distCoeffs : Mat;
  rvecs : list Mat;
  tvecs : list Mat;
  success : bool;
  imageSize : Size;
  checkerboardSize : Size;
  numImagesUsed : Z;
  meanReprojectionError : F64.t
}.

(** ** Traces *)

(** The lines the program prints, one constructor per output statement. *)
Inductive message : Type :=
| MsgStarting
| MsgImageDirectory (dir : string)
| MsgCheckerboardSize (w h : Z)
| MsgNoImagesFound (dir : string)
| MsgFoundImages (n : nat)
| MsgProcessingImage (k n : nat) (path : string)
| MsgCouldNotRead (path : string)
| MsgCheckerboardFound (path : string)
| MsgCheckerboardNotFound (path : string)
| MsgNoCornersDetected
| MsgNoImageDimensions
| MsgPerformingCalibration (n : nat)
| MsgCalibrationFailed
| MsgCalibrationSuccessful
| MsgCameraMatrix (m : Mat)
| MsgDistCoeffs (m : Mat)
| MsgMeanError (e : F64.t)
| MsgCouldNotWrite (path : string)
| MsgSavedTo (path : string)
| MsgCannotShow
| MsgNoImagesForUndistortion
| MsgCouldNotReadForUndistortion
| MsgDisplaying
| MsgUsage (programName : string)
| MsgUnknownArgument (arg : string)
| MsgCreatedDirectory (dir : string)
| MsgPlaceImages
| MsgCouldNotCreateDirectory (dir : string).

(** The calls into the vision library, with the arguments the claims are
    about. *)
Inductive libcall : Type :=
| CallGlob (pattern : string)
| CallImread (path : string)
| CallCvtColor
| CallFindChessboardCorners (patternSize : Size) (flags : Z)
| CallCornerSubPix (corners : list Point2f) (winSize zeroZone : Size) (criteria : TermCriteria)
| CallCalibrateCamera (views : nat) (imgSize : Size)
| CallProjectPoints
| CallNorm (normType : NormType)
| CallGetOptimalNewCameraMatrix
| CallUndistort
| CallImshow (title : string) (img : Image)
| CallWaitKey
| CallDestroyAllWindows.

(** The JSON document of the artifact, as a tree. *)
#[local] Unset Elimination Schemes.
Inductive Json : Type :=
| JNum (d : F64.t)
| JInt (z : Z)
| JBool (b : bool)
| JArr (items : list Json)
| JObj (fields : list (string * Json)).
#[local] Set Elimination Schemes.

Inductive event : Type :=
| Out (m : message)                      (* std::cout *)
| Err (m : message)                      (* std::cerr *)
| Call (c : libcall)
| FsCreateDirectories (dir : string) (done : bool)
    (* [create_directories(dir)] was called; with [done], it returned and
       [dir] and all its missing ancestors now exist; without, it threw,
       after making some of the ancestors at most *)
| FsWrite (path : string) (doc : Json).  (* the file now holds [doc] *)

Definition trace : Type := list event.

Definition is_write (e : event) : bool :=
  match e with FsWrite _ _ => true | _ => false end.

Definition is_call (e : event) : bool :=
  match e with Call _ => true | _ => false end.

Definition is_solver_call (e : event) : bool :=
  match e with Call (CallCalibrateCamera _ _) => true | _ => false end.

Definition is_refiner_call (e : event) : bool :=
  match e with Call (CallCornerSubPix _ _ _ _) => true | _ => false end.

Definition is_mkdir (e : event) : bool :=
  match e with FsCreateDirectories _ _ => true | _ => false end.

(** No artifact is written along a trace. *)
Definition no_artifact (t : trace) : Prop := forallb (fun e => negb (is_write e)) t = true.

(** ** A monad for the program: a trace is accumulated, and a step the
       language leaves undefined (an [operator[]] outside a vector) ends the
       computation with no result. *)

Definition M (A : Type) : Type := option (trace * A).

Definition ret {A : Type} (a : A) : M A := Some ([], a).

Definition bind {A B : Type} (m : M A) (f : A -> M B) : M B :=
  match m with
  | None => None
  | Some (t1, a) =>
      match f a with
      | None => None
      | Some (t2, b) => Some (t1 ++ t2, b)
      end
  end.

Definition emit (e : event) : M unit := Some ([e], tt).

Definition undefined {A : Type} : M A := None.

Declare Scope prog_scope.
Delimit Scope prog_scope with prog.
Notation "x <- c1 ;; c2" := (bind c1 (fun x => c2))
  (at level 100, c1 at next level, right associativity) : prog_scope.
Notation "c1 ;; c2" := (bind c1 (fun _ => c2))
  (at level 100, right associativity) : prog_scope.
Local Open Scope prog_scope.

(** [v[i]] on a [std::vector]. *)
Definition index {A : Type} (v : list A) (i : nat) : M A :=
  match nth_error v i with
  | Some a => ret a
  | None => undefined
  end.

(** ** saveCalibrationResultsToJSON *)

Definition json_row (m : Mat) (i : Z) (n : nat) : Json :=
  JArr (map (fun j => JNum (mat_at m i (Z.of_nat j))) (seq 0 n)).

Definition json_column3 (m : Mat) : Json :=
  JArr (map (fun j => JNum (mat_at m (Z.of_nat j) 0)) (seq 0 3)).

Definition json_of_results (results : CalibrationResults) : Json :=
  JObj
    [ ("camera_matrix",
        JArr (map (fun i => json_row (cameraMatrix results) (Z.of_nat i) 3) (seq 0 3)));
      ("distortion_coefficients",
        JArr (map (fun i => JNum (mat_at (distCoeffs results) (Z.of_nat i) 0))
                  (seq 0 (Z.to_nat (rows (distCoeffs results))))));
      ("rotation_vectors", JArr (map json_column3 (rvecs results)));
      ("translation_vectors", JArr (map json_column3 (tvecs results)));
      ("calibration_success", JBool (success results));
      ("image_dimensions_wh",
        JArr [JInt (width (imageSize results)); JInt (height (imageSize results))]);
      ("checkerboard_dimensions_wh",
        JArr [JInt (width (checkerboardSize results)); JInt (height (checkerboardSize results))]);
      ("num_images_used", JInt (numImagesUsed results));
      ("mean_reprojection_error", JNum (meanReprojectionError results)) ].

Definition saveCalibrationResultsToJSON (E : Env)
    (results : CalibrationResults) (outputFile : string) : M unit :=
  if negb (fs_open_write E outputFile) then
    emit (Err (MsgCouldNotWrite outputFile))
  else
    emit (FsWrite outputFile (json_of_results results)) ;;
    emit (Out (MsgSavedTo outputFile)).

(** ** calibrateCamera *)

(** The values [i] takes in [for (int i = 0; i < n; i++)]. *)
Definition int_range (n : Z) : list Z := map Z.of_nat (seq 0 (Z.to_nat n)).

(** The object-point template: the two nested loops, each [push_back]
    appending [cv::Point3f(j, i, 0)]. *)
Definition objp_row (w : Z) (objp : list Point3f) (i : Z) : list Point3f :=
  fold_left
    (fun objp j => objp ++ [mkPoint3f (F32.of_int j) (F32.of_int i) (F32.of_int 0)])
    (int_range w) objp.

(** The point the loops push for row [i] and column [j]. *)
Definition template_point (i j : Z) : Point3f :=
  mkPoint3f (F32.of_int j) (F32.of_int i) (F32.of_int 0).

Definition make_objp (checkerboardSize : Size) : list Point3f :=
  fold_left (objp_row (width checkerboardSize)) (int_range (height checkerboardSize)) [].

Definition patterns : list string := ["*.jpg"; "*.jpeg"; "*.png"; "*.bmp"; "*.tiff"].

(** The loop over the patterns: each [cv::glob] result is inserted at the
    end of [images]. *)
Fixpoint globAll (E : Env) (imageDir : string) (pats : list string)
    (images : list string) : M (list string) :=
  match pats with
  | [] => ret images
  | pattern :: rest =>
      emit (Call (CallGlob (imageDir ++ "/" ++ pattern)%string)) ;;
      let temp := cv_glob E (imageDir ++ "/" ++ pattern)%string in
      globAll E imageDir rest (images ++ temp)
  end.

(** The variables declared before the loop over the images and changed in
    it. *)
Record Locals : Type := mkLocals {
  objpoints : list (list Point3f);
  imgpoints : list (list Point2f);
  corner_pts : list Point2f;
  loc_imageSize : Size;
  imageSizeSet : bool
}.

Definition initLocals : Locals := mkLocals [] [] [] (mkSize 0 0) false.

Definition detect_flags : Z :=
  Z.lor (Z.lor CALIB_CB_ADAPTIVE_THRESH CALIB_CB_FAST_CHECK) CALIB_CB_NORMALIZE_IMAGE.

(** The literal [0.001]: the [double] nearest to 1/1000. *)
Definition eps_0_001 : F64.t := Eval vm_compute in F64.div (F64.of_Z 1) (F64.of_Z 1000).

Definition criteria : TermCriteria :=
  mkTermCriteria (Z.lor TermCriteria_EPS TermCriteria_MAX_ITER) 30 eps_0_001.

Definition winSize : Size := mkSize 11 11.
Definition zeroZone : Size := mkSize (-1) (-1).

(** One turn of the loop over the images. *)
Definition processImage (E : Env) (checkerboardSize : Size) (objp : list Point3f)
    (n i : nat) (path : string) (st : Locals) : M Locals :=
  emit (Out (MsgProcessingImage (i + 1) n path)) ;;
  emit (Call (CallImread path)) ;;
  let frame := cv_imread E path in
  if img_empty frame then
    emit (Out (MsgCouldNotRead path)) ;;
    ret st
  else
    emit (Call CallCvtColor) ;;
    let gray := cv_cvtColor E frame in
    let st :=
      if negb (imageSizeSet st)
      then mkLocals (objpoints st) (imgpoints st) (corner_pts st)
                    (mkSize (img_cols gray) (img_rows gray)) true
      else st in
    emit (Call (CallFindChessboardCorners checkerboardSize detect_flags)) ;;
    let '(found, corners) := cv_findChessboardCorners E gray checkerboardSize detect_flags in
    if found then
      emit (Call (CallCornerSubPix corners winSize zeroZone criteria)) ;;
      let refined := cv_cornerSubPix E gray corners winSize zeroZone criteria in
      emit (Out (MsgCheckerboardFound path)) ;;
      ret (mkLocals (objpoints st ++ [objp]) (imgpoints st ++ [refined]) refined
                    (loc_imageSize st) (imageSizeSet st))
    else
      emit (Out (MsgCheckerboardNotFound path)) ;;
      ret (mkLocals (objpoints st) (imgpoints st) corners
                    (loc_imageSize st) (imageSizeSet st)).

(** [for (size_t i = 0; i < images.size(); i++)], entered at index [i] with
    the images from [i] on still to process; [n] is [images.size()]. *)
Fixpoint detectLoop (E : Env) (checkerboardSize : Size) (objp : list Point3f)
    (n i : nat) (images : list string) (st : Locals) : M Locals :=
  match images with
  | [] => ret st
  | path :: rest =>
      st' <- processImage E checkerboardSize objp n i path st ;;
      detectLoop E checkerboardSize objp n (S i) rest st'
  end.

(** The loop that sums the per-image errors, entered at index [i] with
    [todo] turns left. *)
Fixpoint evalLoop (E : Env) (objpoints : list (list Point3f))
    (imgpoints : list (list Point2f)) (results : CalibrationResults)
    (i todo : nat) (totalError : F64.t) : M F64.t :=
  match todo with
  | O => ret totalError
  | S todo' =>
      o <- index objpoints i ;;
      rvec <- index (rvecs results) i ;;
      tvec <- index (tvecs results) i ;;
      emit (Call CallProjectPoints) ;;
      let imgpoints2 :=
        cv_projectPoints E o rvec tvec (cameraMatrix results) (distCoeffs results) in
      observed <- index imgpoints i ;;
      emit (Call (CallNorm NORM_L2)) ;;
      let error :=
        F64.div (cv_norm E observed imgpoints2 NORM_L2)
                (F64.of_size (length imgpoints2)) in
      evalLoop E objpoints imgpoints results (S i) todo' (F64.add totalError error)
  end.

Definition is_empty {A : Type} (l : list A) : bool :=
  match l with [] => true | _ :: _ => false end.

(** [CalibrationResults results;] followed by the four assignments. *)
Definition initialResults (checkerboardSize : Size) : CalibrationResults :=
  mkResults emptyMat emptyMat [] [] false (mkSize 0 0) checkerboardSize 0 F64.zero.

Definition calibrateCamera (E : Env) (imageDir : string) (checkerboardSize : Size)
    : M CalibrationResults :=
  emit (Out MsgStarting) ;;
  emit (Out (MsgImageDirectory imageDir)) ;;
  emit (Out (MsgCheckerboardSize (width checkerboardSize) (height checkerboardSize))) ;;
  let results := initialResults checkerboardSize in
  let objp := make_objp checkerboardSize in
  images <- globAll E imageDir patterns [] ;;
  if is_empty images then
    emit (Err (MsgNoImagesFound imageDir)) ;;
    ret results
  else
    emit (Out (MsgFoundImages (length images))) ;;
    st <- detectLoop E checkerboardSize objp (length images) 0 images initLocals ;;
    if is_empty (objpoints st) || is_empty (imgpoints st) then
      emit (Err MsgNoCornersDetected) ;;
      ret results
    else if negb (imageSizeSet st) then
      emit (Err MsgNoImageDimensions) ;;
      ret results
    else
      emit (Out (MsgPerformingCalibration (length (objpoints st)))) ;;
      emit (Call (CallCalibrateCamera (length (objpoints st)) (loc_imageSize st))) ;;
      let so := cv_calibrateCamera E (objpoints st) (imgpoints st) (loc_imageSize st) in
      let results :=
        mkResults (so_cameraMatrix so) (so_distCoeffs so) (so_rvecs so) (so_tvecs so)
                  (F64.to_bool (so_rms so))
                  (imageSize results) checkerboardSize
                  (numImagesUsed results) (meanReprojectionError results) in
      if negb (success results) then
        emit (Err MsgCalibrationFailed) ;;
        ret results
      else
        let results :=
          mkResults (cameraMatrix results) (distCoeffs results)
                    (rvecs results) (tvecs results) (success results)
                    (loc_imageSize st) checkerboardSize
                    (to_int (Z.of_nat (length (objpoints st))))
                    (meanReprojectionError results) in
        emit (Out MsgCalibrationSuccessful) ;;
        emit (Out (MsgCameraMatrix (cameraMatrix results))) ;;
        emit (Out (MsgDistCoeffs (distCoeffs results))) ;;
        totalError <- evalLoop E (objpoints st) (imgpoints st) results
                        0 (length (objpoints st)) F64.zero ;;
        let results :=
          mkResults (cameraMatrix results) (distCoeffs results)
                    (rvecs results) (tvecs results) (success results)
                    (imageSize results) checkerboardSize
                    (numImagesUsed results)
                    (F64.div totalError (F64.of_size (length (objpoints st)))) in
        emit (Out (MsgMeanError (meanReprojectionError results))) ;;
        ret results.

(** ** showUndistortedImage *)

Definition showUndistortedImage (E : Env) (results : CalibrationResults)
    (imageDir : string) : M unit :=
  if negb (success results) then
    emit (Err MsgCannotShow)
  else
    images <- globAll E imageDir patterns [] ;;
    match images with
    | [] => emit (Err MsgNoImagesForUndistortion)
    | first :: _ =>
        emit (Call (CallImread first)) ;;
        let img := cv_imread E first in
        if img_empty img then
          emit (Err MsgCouldNotReadForUndistortion)
        else
          let imageSize := mkSize (img_cols img) (img_rows img) in
          emit (Call CallGetOptimalNewCameraMatrix) ;;
          let newCameraMatrix :=
            cv_getOptimalNewCameraMatrix E (cameraMatrix results) (distCoeffs results)
              imageSize (F64.of_Z 1) imageSize in
          emit (Call CallUndistort) ;;
          let dst :=
            cv_undistort E img (cameraMatrix results) (distCoeffs results)
              newCameraMatrix in
          emit (Out MsgDisplaying) ;;
          emit (Call (CallImshow "Original Image" img)) ;;
          emit (Call (CallImshow "Undistorted Image" dst)) ;;
          emit (Call CallWaitKey) ;;
          emit (Call CallDestroyAllWindows)
    end.

(** ** main *)

Definition printUsage (programName : string) : M unit :=
  emit (Out (MsgUsage programName)).

Record Config : Type := mkConfig {
  imageDir : string;
  outputFile : string;
  checkerboardWidth : Z;
  checkerboardHeight : Z;
  showDisplay : bool
}.

Definition defaultConfig : Config :=
  mkConfig "./images" "calibration_results.json" 7 10 true.

(** [std::stoi]: white space, an optional sign, decimal digits; [None] when
    it throws ([invalid_argument] without a digit, [out_of_range] outside
    [int]). *)
Definition is_space (c : ascii) : bool :=
  let n := N_of_ascii c in ((n =? 32) || ((9 <=? n) && (n <=? 13)))%N.

Definition is_digit (c : ascii) : bool :=
  let n := N_of_ascii c in ((48 <=? n) && (n <=? 57))%N.

Fixpoint skip_spaces (s : string) : string :=
  match s with
  | String c rest => if is_space c then skip_spaces rest else s
  | EmptyString => s
  end.

(** The value of the leading digits of [s] after the value [acc], and
    whether there was a digit. *)
Fixpoint read_digits (s : string) (acc : Z) (seen : bool) : Z * bool :=
  match s with
  | String c rest =>
      if is_digit c
      then read_digits rest (10 * acc + (Z.of_N (N_of_ascii c) - 48)) true
      else (acc, seen)
  | EmptyString => (acc, seen)
  end.

Definition stoi (s : string) : option Z :=
  let s := skip_spaces s in
  let '(negative, s) :=
    match s with
    | String "-"%char rest => (true, rest)
    | String "+"%char rest => (false, rest)
    | _ => (false, s)
    end in
  let '(v, seen) := read_digits s 0 false in
  let v := if negative then - v else v in
  if seen && (INT_MIN <=? v) && (v <=? INT_MAX) then Some v else None.

(** How the pass over the arguments ends. *)
Inductive Parsed : Type :=
| Configured (cfg : Config)
| Returned (code : Z)
| Thrown.                 (* [std::stoi] threw and nothing catches it *)

Definition unknownArgument (programName arg : string) : M Parsed :=
  emit (Err (MsgUnknownArgument arg)) ;;
  printUsage programName ;;
  ret (Returned 1).

(** The loop over [argv], entered with the arguments still to read. *)
Fixpoint parseArgs (programName : string) (args : list string) (cfg : Config)
    : M Parsed :=
  match args with
  | [] => ret (Configured cfg)
  | arg :: rest =>
      if (arg =? "-h")%string || (arg =? "--help")%string then
        printUsage programName ;;
        ret (Returned 0)
      else
        let noDisplay :=
          if (arg =? "--no-display")%string then
            parseArgs programName rest
              (mkConfig (imageDir cfg) (outputFile cfg) (checkerboardWidth cfg)
                        (checkerboardHeight cfg) false)
          else unknownArgument programName arg in
        match rest with
        | [] => noDisplay
        | value :: rest' =>
            if (arg =? "-i")%string || (arg =? "--image_dir")%string then
              parseArgs programName rest'
                (mkConfig value (outputFile cfg) (checkerboardWidth cfg)
                          (checkerboardHeight cfg) (showDisplay cfg))
            else if (arg =? "-o")%string || (arg =? "--output_file")%string then
              parseArgs programName rest'
                (mkConfig (imageDir cfg) value (checkerboardWidth cfg)
                          (checkerboardHeight cfg) (showDisplay cfg))
            else if (arg =? "-cw")%string || (arg =? "--checkerboard_width")%string then
              match stoi value with
              | Some v =>
                  parseArgs programName rest'
                    (mkConfig (imageDir cfg) (outputFile cfg) v
                              (checkerboardHeight cfg) (showDisplay cfg))
              | None => ret Thrown
              end
            else if (arg =? "-ch")%string || (arg =? "--checkerboard_height")%string then
              match stoi value with
              | Some v =>
                  parseArgs programName rest'
                    (mkConfig (imageDir cfg) (outputFile cfg) (checkerboardWidth cfg)
                              v (showDisplay cfg))
              | None => ret Thrown
              end
            else noDisplay
        end
  end.

(** How the process ends. *)
Inductive Outcome : Type :=
| Exit (code : Z)
| Terminated.             (* [std::terminate] on an uncaught exception *)

(** [main] from the test on the image directory on.  The test is outside
    the [try] block: when [std::filesystem::exists] throws, nothing catches
    the exception. *)
Definition run (E : Env) (cfg : Config) : M Outcome :=
  match fs_exists E (imageDir cfg) with
  | None => ret Terminated
  | Some false =>
      if fs_create_directories E (imageDir cfg) then
        emit (FsCreateDirectories (imageDir cfg) true) ;;
        emit (Out (MsgCreatedDirectory (imageDir cfg))) ;;
        emit (Out MsgPlaceImages) ;;
        ret (Exit 0)
      else
        emit (FsCreateDirectories (imageDir cfg) false) ;;
        emit (Err (MsgCouldNotCreateDirectory (imageDir cfg))) ;;
        ret (Exit 1)
  | Some true =>
      let checkerboardSize := mkSize (checkerboardWidth cfg) (checkerboardHeight cfg) in
      results <- calibrateCamera E (imageDir cfg) checkerboardSize ;;
      (if success results then
         saveCalibrationResultsToJSON E results (outputFile cfg) ;;
         if showDisplay cfg then showUndistortedImage E results (imageDir cfg)
         else ret tt
       else ret tt) ;;
      ret (Exit (if success results then 0 else 1))
  end.

Definition main (E : Env) (argv : list string) : M Outcome :=
  parsed <-
    match argv with
    | [] => ret (Configured defaultConfig)
    | programName :: args => parseArgs programName args defaultConfig
    end ;;
  match parsed with
  | Configured cfg => run E cfg
  | Returned code => ret (Exit code)
  | Thrown => ret Terminated
  end.

(** ** Reading a run *)

Definition value_of {A : Type} (m : M A) (default : A) : A :=
  match m with Some (_, a) => a | None => default end.

Definition trace_of {A : Type} (m : M A) : trace :=
  match m with Some (t, _) => t | None => [] end.

(** The images of a run, in the order the program enumerates them. *)
Definition imageFiles (E : Env) (imageDir : string) : list string :=
  concat (map (fun pattern => cv_glob E (imageDir ++ "/" ++ pattern)%string) patterns).

(** The variables of [calibrateCamera] when the loop over the images is
    left: [objpoints] and [imgpoints] are the correspondence set. *)
Definition accumulated (E : Env) (imageDir : string) (checkerboardSize : Size) : Locals :=
  value_of
    (images <- globAll E imageDir patterns [] ;;
     detectLoop E checkerboardSize (make_objp checkerboardSize)
       (length images) 0 images initLocals)
    initLocals.

(** What one image goes through. *)
Definition readable (E : Env) (path : string) : bool :=
  negb (img_empty (cv_imread E path)).

Definition gray_of (E : Env) (path : string) : Image :=
  cv_cvtColor E (cv_imread E path).

Definition detection (E : Env) (checkerboardSize : Size) (path : string)
    : bool * list Point2f :=
  cv_findChessboardCorners E (gray_of E path) checkerboardSize detect_flags.

(** The image is read and detection reports success on it. *)
Definition detected (E : Env) (checkerboardSize : Size) (path : string) : bool :=
  readable E path && fst (detection E checkerboardSize path).

Definition refined (E : Env) (checkerboardSize : Size) (path : string) : list Point2f :=
  cv_cornerSubPix E (gray_of E path) (snd (detection E checkerboardSize path))
    winSize zeroZone criteria.

(** The pixel dimensions (width, height) of an image as the program takes
    them, from the grey-level copy. *)
Definition dimensions (E : Env) (path : string) : Size :=
  mkSize (img_cols (gray_of E path)) (img_rows (gray_of E path)).

(** The images that contribute an observation. *)
Definition contributing (E : Env) (imageDir : string) (checkerboardSize : Size)
    : list string :=
  filter (detected E checkerboardSize) (imageFiles E imageDir).

(** The first image of the enumeration that can be read. *)
Definition first_readable (E : Env) (imageDir : string) : option string :=
  find (readable E) (imageFiles E imageDir).


(** The window a call of the refiner searches. *)
Definition refiner_window (c : libcall) : option Size :=
  match c with
  | CallCornerSubPix _ w _ _ => Some (searchWindow w)
  | _ => None
  end.

(** ** Contracts of the vision library *)

(** A solve that reports success has produced one rotation vector and one
    translation vector per view. *)
Definition solver_poses (E : Env) : Prop :=
  forall objs imgs sz,
    F64.to_bool (so_rms (cv_calibrateCamera E objs imgs sz)) = true ->
    length (so_rvecs (cv_calibrateCamera E objs imgs sz)) = length objs /\
    length (so_tvecs (cv_calibrateCamera E objs imgs sz)) = length objs.

(** A detection that reports success has found the whole grid. *)
Definition detector_full (E : Env) : Prop :=
  forall gray sz flags,
    fst (cv_findChessboardCorners E gray sz flags) = true ->
    Z.of_nat (length (snd (cv_findChessboardCorners E gray sz flags)))
      = width sz * height sz.

(** The refiner works in place: as many corners out as in. *)
Definition refiner_keeps_length (E : Env) : Prop :=
  forall gray corners win zero crit,
    length (cv_cornerSubPix E gray corners win zero crit) = length corners.

(** One projected point per object point. *)
Definition projection_keeps_length (E : Env) : Prop :=
  forall o rvec tvec K D, length (cv_projectPoints E o rvec tvec K D) = length o.

(** The L2 norm of two sequences of equal length is a number at least 0. *)
Definition norm_nonneg (E : Env) : Prop :=
  forall a b, length a = length b -> F64.nonneg (cv_norm E a b NORM_L2).

(** ** The quality measure, as the specification words it *)

(** The L2 norm between the observed and the reprojected points, divided by
    the number of points. *)
Definition per_image_error (E : Env) (results : CalibrationResults)
    (objp : list Point3f) (observed : list Point2f) (rvec tvec : Mat) : F64.t :=
  F64.div
    (cv_norm E observed
       (cv_projectPoints E objp rvec tvec (cameraMatrix results) (distCoeffs results))
       NORM_L2)
    (F64.of_size (length observed)).

Definition per_image_errors (E : Env) (results : CalibrationResults)
    (objp : list Point3f) (observations : list (list Point2f)) : list F64.t :=
  map (fun '(observed, (rvec, tvec)) =>
         per_image_error E results objp observed rvec tvec)
      (combine observations (combine (rvecs results) (tvecs results))).

Definition arithmetic_mean (l : list F64.t) : F64.t :=
  F64.div (fold_left F64.add l F64.zero) (F64.of_size (length l)).

(** ** A small world to run the program in

    Images are one pixel of data: 1 when a board is visible.  The toy
    detector finds the whole grid on such an image and leaves a single
    stray corner otherwise; the toy solver reports the RMS it is given. *)

Definition toyPoint : Point2f := mkPoint2f (F32.of_int 0) (F32.of_int 0).
Definition toyVec : Mat := mkMat 3 1 [F64.zero; F64.zero; F64.zero].
Definition toyMatrix : Mat :=
  mkMat 3 3 [F64.of_Z 1; F64.zero; F64.zero;
             F64.zero; F64.of_Z 1; F64.zero;
             F64.zero; F64.zero; F64.of_Z 1].
Definition toyDist : Mat := mkMat 1 5 [F64.zero; F64.zero; F64.zero; F64.zero; F64.zero].

Definition board (r c : Z) : Image := mkImage r c [1].
Definition blank (r c : Z) : Image := mkImage r c [0].
Definition unreadable : Image := mkImage 0 0 [].

Fixpoint lookup (files : list (string * Image)) (path : string) : Image :=
  match files with
  | [] => unreadable
  | (name, img) :: rest => if (name =? path)%string then img else lookup rest path
  end.

Definition toyEnv (files : list (string * Image))
    (dirExists canCreate canOpen : bool) (rms : F64.t) : Env :=
  {| fs_exists := fun _ => Some dirExists;
     fs_create_directories := fun _ => canCreate;
     fs_open_write := fun _ => canOpen;
     cv_glob := fun pattern =>
       if (pattern =? "./images/*.png")%string then map fst files else [];
     cv_imread := lookup files;
     cv_cvtColor := fun frame => frame;
     cv_findChessboardCorners := fun gray sz _ =>
       match img_data gray with
       | 1 :: _ =>
           if (0 <? width sz) && (0 <? height sz)
           then (true, repeat toyPoint (Z.to_nat (width sz * height sz)))
           else (false, [])
       | _ => (false, [toyPoint])
       end;
     cv_cornerSubPix := fun _ corners _ _ _ => corners;
     cv_calibrateCamera := fun objs _ _ =>
       mkSolverOut rms toyMatrix toyDist
         (map (fun _ => toyVec) objs) (map (fun _ => toyVec) objs);
     cv_projectPoints := fun o _ _ _ _ => map (fun _ => toyPoint) o;
     cv_norm := fun a _ _ => F64.of_size (length a);
     cv_getOptimalNewCameraMatrix := fun K _ _ _ _ => K;
     cv_undistort := fun src _ _ _ => src |}.

Definition threeImages : list (string * Image) :=
  [ ("./images/a.png", board 480 640);
    ("./images/b.png", blank 480 640);
    ("./images/c.png", board 480 640) ].


Definition one : F64.t := Eval vm_compute in F64.of_Z 1.

Definition toyConfig : Config := mkConfig "./images" "out.json" 3 2 false.

(** ** Reading a trace *)

(** The calls of the refiner along a trace, in order. *)
Definition refiner_calls (t : trace) : list libcall :=
  flat_map
    (fun e =>
       match e with
       | Call (CallCornerSubPix corners w z c) => [CallCornerSubPix corners w z c]
       | _ => []
       end) t.

(** An event that neither touches the file system nor calls the solver. *)
Definition harmless (e : event) : bool :=
  negb (is_write e) && negb (is_mkdir e) && negb (is_solver_call e).

(** The call of the refiner that the program makes for an image. *)
Definition refiner_call_for (E : Env) (checkerboardSize : Size) (path : string) : libcall :=
  CallCornerSubPix (snd (detection E checkerboardSize path)) winSize zeroZone criteria.

(** The error the evaluation loop computes in one turn. *)
Definition loop_error (E : Env) (results : CalibrationResults)
    (view : list Point3f * (list Point2f * (Mat * Mat))) : F64.t :=
  let '(o, (observed, (rvec, tvec))) := view in
  let imgpoints2 :=
    cv_projectPoints E o rvec tvec (cameraMatrix results) (distCoeffs results) in
  F64.div (cv_norm E observed imgpoints2 NORM_L2) (F64.of_size (length imgpoints2)).

(** The views the evaluation loop goes through: the four vectors it indexes,
    side by side. *)
Definition views (objpoints : list (list Point3f)) (imgpoints : list (list Point2f))
    (results : CalibrationResults)
    : list (list Point3f * (list Point2f * (Mat * Mat))) :=
  combine objpoints (combine imgpoints (combine (rvecs results) (tvecs results))).

Definition eval_calls (n : nat) : trace :=
  concat (repeat [Call CallProjectPoints; Call (CallNorm NORM_L2)] n).

(** The record [calibrateCamera] returns when the solver reports failure:
    the outputs of the solver are in it, nothing else has been set. *)
Definition failedResults (checkerboardSize : Size) (so : SolverOut) : CalibrationResults :=
  mkResults (so_cameraMatrix so) (so_distCoeffs so) (so_rvecs so) (so_tvecs so)
    false (mkSize 0 0) checkerboardSize 0 F64.zero.

(** The record it holds after a successful solve, with [mean] in the field
    of the mean reprojection error. *)
Definition solvedResults (checkerboardSize : Size) (st : Locals) (so : SolverOut)
    (mean : F64.t) : CalibrationResults :=
  mkResults (so_cameraMatrix so) (so_distCoeffs so) (so_rvecs so) (so_tvecs so)
    true (loc_imageSize st) checkerboardSize
    (to_int (Z.of_nat (length (objpoints st)))) mean.

(** An event that does not touch the file system. *)
Definition readonly (e : event) : bool := negb (is_write e) && negb (is_mkdir e).

Definition toyWorld : Env := toyEnv threeImages true true true one.
Definition toySize : Size := mkSize 3 2.


(** A world where the results file cannot be opened, and one where the
    image directory is missing and cannot be created. *)
Definition readOnlyWorld : Env := toyEnv threeImages true true false one.
Definition lockedWorld : Env := toyEnv [] false false true one.
Definition freshWorld : Env := toyEnv [] false true true one.

(** A world where the image directory cannot be examined: the test on it
    throws. *)
Definition unsearchable (E : Env) : Env :=
  {| fs_exists := fun _ => None;
     fs_create_directories := fs_create_directories E;
     fs_open_write := fs_open_write E;
     cv_glob := cv_glob E;
     cv_imread := cv_imread E;
     cv_cvtColor := cv_cvtColor E;
     cv_findChessboardCorners := cv_findChessboardCorners E;
     cv_cornerSubPix := cv_cornerSubPix E;
     cv_calibrateCamera := cv_calibrateCamera E;
     cv_projectPoints := cv_projectPoints E;
     cv_norm := cv_norm E;
     cv_getOptimalNewCameraMatrix := cv_getOptimalNewCameraMatrix E;
     cv_undistort := cv_undistort E |}.
Definition unsearchableWorld : Env := unsearchable toyWorld.

(** ** The claims that the program does not meet, as propositions *)

(** Every successful run writes the artifact and exits with code 0. *)
Definition success_writes_artifact (E : Env) (cfg : Config) : Prop :=
  forall tc r t outcome,
    calibrateCamera E (imageDir cfg)
      (mkSize (checkerboardWidth cfg) (checkerboardHeight cfg)) = Some (tc, r) ->
    success r = true ->
    run E cfg = Some (t, outcome) ->
    outcome = Exit 0 /\ existsb is_write t = true.

(** A run that does not find its image directory creates it and exits with
    code 0. *)
Definition missing_directory_exits_zero (E : Env) (cfg : Config) : Prop :=
  fs_exists E (imageDir cfg) <> Some true ->
  exists t, run E cfg = Some (t, Exit 0) /\
            In (FsCreateDirectories (imageDir cfg) true) t.

(** Every call of the refiner searches a window of 11 x 11 pixels. *)
Definition refiner_window_11 (t : trace) : Prop :=
  forall c, In c (refiner_calls t) -> refiner_window c = Some (mkSize 11 11).

(** ** More readings of a trace *)

(** The files handed to [cv::imread], in order. *)
Definition imread_calls (t : trace) : list string :=
  flat_map (fun e => match e with Call (CallImread path) => [path] | _ => [] end) t.

(** The patterns handed to [cv::glob], in order. *)
Definition glob_calls (t : trace) : list string :=
  flat_map (fun e => match e with Call (CallGlob pattern) => [pattern] | _ => [] end) t.

(** The calls of the solver, in order. *)
Definition solver_calls (t : trace) : list libcall :=
  flat_map
    (fun e =>
       match e with
       | Call (CallCalibrateCamera n sz) => [CallCalibrateCamera n sz]
       | _ => []
       end) t.

(** The number of calls of the detector. *)
Definition detector_calls (t : trace) : nat :=
  length (filter (fun e => match e with
                           | Call (CallFindChessboardCorners _ _) => true
                           | _ => false
                           end) t).

(** The progress lines "Processing image k/n: path", in order. *)
Definition progress_lines (t : trace) : list (nat * nat * string) :=
  flat_map
    (fun e =>
       match e with
       | Out (MsgProcessingImage k n path) => [(k, n, path)]
       | _ => []
       end) t.

(** The files written, with what they hold, in order. *)
Definition writes (t : trace) : list (string * Json) :=
  flat_map (fun e => match e with FsWrite path doc => [(path, doc)] | _ => [] end) t.

(** The calls of [std::filesystem::create_directories] with their outcome,
    in order. *)
Definition directory_creations (t : trace) : list (string * bool) :=
  flat_map
    (fun e => match e with FsCreateDirectories dir done => [(dir, done)] | _ => [] end) t.

(** A call that opens, waits on or closes a window. *)
Definition is_display_call (e : event) : bool :=
  match e with
  | Call (CallImshow _ _) | Call CallWaitKey | Call CallDestroyAllWindows => true
  | _ => false
  end.

(** The lines printed on [std::cerr], in order. *)
Definition error_lines (t : trace) : list message :=
  flat_map (fun e => match e with Err m => [m] | _ => [] end) t.

(** The events of [calibrateCamera] before the loop over the images. *)
Definition prologue (imageDir : string) (checkerboardSize : Size) : trace :=
  [Out MsgStarting; Out (MsgImageDirectory imageDir);
   Out (MsgCheckerboardSize (width checkerboardSize) (height checkerboardSize))]
  ++ map (fun pattern => Call (CallGlob (imageDir ++ "/" ++ pattern)%string)) patterns.

(** The value of a field of a JSON object. *)
Fixpoint assoc (name : string) (fields : list (string * Json)) : option Json :=
  match fields with
  | [] => None
  | (key, value) :: rest => if (key =? name)%string then Some value else assoc name rest
  end.

Definition json_field (name : string) (doc : Json) : option Json :=
  match doc with
  | JObj fields => assoc name fields
  | _ => None
  end.

(** ** More small worlds *)

(** The solver reports an RMS of exactly 0, or a NaN. *)
Definition perfectWorld : Env := toyEnv threeImages true true true F64.zero.
Definition nanWorld : Env := toyEnv threeImages true true true S754_nan.

(** The solver reports success but leaves a single pose, whatever the
    number of views. *)
Definition shortWorld : Env :=
  {| fs_exists := fs_exists toyWorld;
     fs_create_directories := fs_create_directories toyWorld;
     fs_open_write := fs_open_write toyWorld;
     cv_glob := cv_glob toyWorld;
     cv_imread := cv_imread toyWorld;
     cv_cvtColor := cv_cvtColor toyWorld;
     cv_findChessboardCorners := cv_findChessboardCorners toyWorld;
     cv_cornerSubPix := cv_cornerSubPix toyWorld;
     cv_calibrateCamera := fun _ _ _ => mkSolverOut one toyMatrix toyDist [toyVec] [toyVec];
     cv_projectPoints := cv_projectPoints toyWorld;
     cv_norm := cv_norm toyWorld;
     cv_getOptimalNewCameraMatrix := cv_getOptimalNewCameraMatrix toyWorld;
     cv_undistort := cv_undistort toyWorld |}.

(** The first image of the enumeration cannot be read, the second shows a
    board. *)
Definition brokenFirst : list (string * Image) :=
  [ ("./images/a.png", unreadable); ("./images/b.png", board 480 640) ].
Definition brokenFirstWorld : Env := toyEnv brokenFirst true true true one.

Definition displayConfig : Config := mkConfig "./images" "out.json" 3 2 true.


(** * Properties *)

(** ** The monad *)

Lemma bind_Some {A B : Type} (m : M A) (f : A -> M B) t b :
  bind m f = Some (t, b) <->
  exists t1 a t2, m = Some (t1, a) /\ f a = Some (t2, b) /\ t = t1 ++ t2.
Proof.
  unfold bind. split.
  - destruct m as [[t1 a]|]; [|discriminate].
    destruct (f a) as [[t2 b']|] eqn:Hf; [|discriminate].
    intros H. injection H as <- <-. now exists t1, a, t2.
  - intros (t1 & a & t2 & -> & Hf & ->). now rewrite Hf.
Qed.

Lemma bind_value {A B : Type} (t1 : trace) (a : A) (f : A -> M B) :
  bind (Some (t1, a)) f =
  match f a with None => None | Some (t2, b) => Some (t1 ++ t2, b) end.
Proof. reflexivity. Qed.

Lemma emit_bind {B : Type} (e : event) (k : M B) :
  (emit e ;; k) = match k with None => None | Some (t, b) => Some (e :: t, b) end.
Proof. reflexivity. Qed.

Lemma index_Some {A : Type} (v : list A) i t a :
  index v i = Some (t, a) <-> t = [] /\ nth_error v i = Some a.
Proof.
  unfold index, ret, undefined. destruct (nth_error v i); split.
  - intros H. now injection H as <- <-.
  - intros [-> H]. now injection H as ->.
  - discriminate.
  - intros [_ H]. discriminate.
Qed.

(** ** Enumerating the images *)

Lemma globAll_spec E dir pats images :
  globAll E dir pats images =
  Some (map (fun pattern => Call (CallGlob (dir ++ "/" ++ pattern)%string)) pats,
        images ++ concat (map (fun pattern => cv_glob E (dir ++ "/" ++ pattern)%string) pats)).
Proof.
  revert images. induction pats as [|p pats IH]; intros images; cbn [globAll map concat].
  - unfold ret. now rewrite app_nil_r.
  - rewrite emit_bind, IH. now rewrite app_assoc.
Qed.

Lemma globAll_images E dir :
  globAll E dir patterns [] =
  Some (map (fun pattern => Call (CallGlob (dir ++ "/" ++ pattern)%string)) patterns,
        imageFiles E dir).
Proof. now rewrite globAll_spec. Qed.

(** ** The loop over the images *)

Lemma refiner_calls_app t1 t2 :
  refiner_calls (t1 ++ t2) = refiner_calls t1 ++ refiner_calls t2.
Proof. unfold refiner_calls. now rewrite flat_map_app. Qed.

Lemma processImage_spec E size objp n i path st :
  exists t st',
    processImage E size objp n i path st = Some (t, st') /\
    objpoints st' = objpoints st ++ (if detected E size path then [objp] else []) /\
    imgpoints st' =
      imgpoints st ++ (if detected E size path then [refined E size path] else []) /\
    imageSizeSet st' = imageSizeSet st || readable E path /\
    loc_imageSize st' =
      (if imageSizeSet st then loc_imageSize st
       else if readable E path then dimensions E path else loc_imageSize st) /\
    forallb harmless t = true /\
    refiner_calls t =
      (if detected E size path then [refiner_call_for E size path] else []).
Proof.
  unfold processImage, detected, refined, refiner_call_for, detection, dimensions,
    readable, gray_of.
  destruct (img_empty (cv_imread E path)) eqn:Hempty; cbn [negb andb].
  - eexists _, st. split; [reflexivity|].
    rewrite !app_nil_r, orb_false_r. destruct (imageSizeSet st); now repeat split.
  - destruct (cv_findChessboardCorners E (cv_cvtColor E (cv_imread E path)) size detect_flags)
      as [found corners] eqn:Hdet.
    destruct found, (imageSizeSet st) eqn:Hset; cbn;
      eexists _, _; (split; [reflexivity|]); cbn;
      rewrite ?app_nil_r, ?Hset; now repeat split.
Qed.

Lemma detectLoop_spec E size objp n : forall images i st,
  exists t st',
    detectLoop E size objp n i images st = Some (t, st') /\
    objpoints st' =
      objpoints st ++ repeat objp (length (filter (detected E size) images)) /\
    imgpoints st' =
      imgpoints st ++ map (refined E size) (filter (detected E size) images) /\
    imageSizeSet st' = imageSizeSet st || existsb (readable E) images /\
    loc_imageSize st' =
      (if imageSizeSet st then loc_imageSize st
       else match find (readable E) images with
            | Some path => dimensions E path
            | None => loc_imageSize st
            end) /\
    forallb harmless t = true /\
    refiner_calls t = map (refiner_call_for E size) (filter (detected E size) images).
Proof.
  induction images as [|path images IH]; intros i st; cbn [detectLoop].
  - exists [], st. cbn. rewrite !app_nil_r, orb_false_r.
    destruct (imageSizeSet st); now repeat split.
  - destruct (processImage_spec E size objp n i path st)
      as (t1 & st1 & -> & Hobj1 & Himg1 & Hset1 & Hsize1 & Hh1 & Hr1).
    destruct (IH (S i) st1) as (t2 & st2 & Hloop & Hobj2 & Himg2 & Hset2 & Hsize2 & Hh2 & Hr2).
    rewrite bind_value, Hloop. exists (t1 ++ t2), st2.
    split; [reflexivity|].
    rewrite Hobj2, Himg2, Hset2, Hsize2, Hobj1, Himg1, Hset1, Hsize1.
    rewrite forallb_app, Hh1, Hh2, refiner_calls_app, Hr1, Hr2.
    cbn [filter find existsb].
    assert (Hdr : detected E size path = true -> readable E path = true).
    { unfold detected. now intros [H _]%andb_prop. }
    destruct (detected E size path) eqn:Hdet, (readable E path) eqn:Hread;
      try (specialize (Hdr eq_refl); discriminate);
      cbn [length repeat map app]; rewrite <- ?app_assoc, ?app_nil_r, ?orb_true_r, ?orb_false_r;
      cbn [app]; destruct (imageSizeSet st); cbn [orb]; now repeat split.
Qed.

Lemma accumulated_spec E dir size :
  exists t,
    detectLoop E size (make_objp size) (length (imageFiles E dir)) 0
      (imageFiles E dir) initLocals = Some (t, accumulated E dir size).
Proof.
  unfold accumulated. rewrite globAll_images, bind_value.
  destruct (detectLoop_spec E size (make_objp size) (length (imageFiles E dir))
              (imageFiles E dir) 0 initLocals) as (t & st & -> & _).
  now exists t.
Qed.

(** ** The evaluation loop *)

Lemma nth_error_combine {A B : Type} (l1 : list A) (l2 : list B) : forall i,
  nth_error (combine l1 l2) i =
  match nth_error l1 i, nth_error l2 i with
  | Some a, Some b => Some (a, b)
  | _, _ => None
  end.
Proof.
  revert l2. induction l1 as [|a l1 IH]; intros [|b l2] [|i]; cbn; try reflexivity.
  - now destruct (nth_error l1 i).
  - apply IH.
Qed.

Lemma skipn_nth_error {A : Type} (l : list A) : forall i a,
  nth_error l i = Some a -> skipn i l = a :: skipn (S i) l.
Proof.
  induction l as [|x l IH]; intros [|i] a H; cbn in *; try discriminate.
  - now injection H as ->.
  - now apply IH.
Qed.

Lemma nth_error_defined {A : Type} (l : list A) i :
  (i < length l)%nat -> exists a, nth_error l i = Some a.
Proof.
  intros H. destruct (nth_error l i) eqn:Hn; [now eexists|].
  apply nth_error_None in Hn. lia.
Qed.

Lemma evalLoop_spec E objs imgs r : forall todo i total,
  (i + todo <= length objs)%nat ->
  length imgs = length objs ->
  length (rvecs r) = length objs ->
  length (tvecs r) = length objs ->
  evalLoop E objs imgs r i todo total =
  Some (eval_calls todo,
        fold_left F64.add
          (map (loop_error E r) (firstn todo (skipn i (views objs imgs r)))) total).
Proof.
  induction todo as [|todo IH]; intros i total Hi Himg Hr Ht; cbn [evalLoop].
  - reflexivity.
  - destruct (nth_error_defined objs i) as [o Ho]; [lia|].
    destruct (nth_error_defined imgs i) as [ip Hip]; [lia|].
    destruct (nth_error_defined (rvecs r) i) as [rv Hrv]; [lia|].
    destruct (nth_error_defined (tvecs r) i) as [tv Htv]; [lia|].
    unfold index. rewrite Ho, Hrv, Htv, Hip. unfold ret. rewrite !bind_value.
    rewrite !emit_bind, IH by (assumption || lia).
    assert (Hv : nth_error (views objs imgs r) i = Some (o, (ip, (rv, tv)))).
    { unfold views. now rewrite !nth_error_combine, Ho, Hip, Hrv, Htv. }
    rewrite (skipn_nth_error _ _ _ Hv). cbn [firstn map fold_left loop_error].
    reflexivity.
Qed.

(** ** calibrateCamera, path by path *)

Ltac inv_bind H Hm :=
  let t1 := fresh "t" in
  let a := fresh "a" in
  let t2 := fresh "t" in
  apply bind_Some in H; destruct H as (t1 & a & t2 & Hm & H & ->).

Ltac inv_emit H :=
  let Hm := fresh "Hm" in
  inv_bind H Hm; unfold emit in Hm; injection Hm as <- <-.

Ltac inv_ret H := unfold ret in H; injection H as <- <-.

Lemma is_empty_nil {A : Type} (l : list A) : is_empty l = true <-> l = [].
Proof. destruct l; cbn; split; congruence. Qed.

Lemma accumulated_facts E dir size :
  let st := accumulated E dir size in
  objpoints st = repeat (make_objp size) (length (imgpoints st)) /\
  imgpoints st = map (refined E size) (contributing E dir size) /\
  (imgpoints st <> [] -> imageSizeSet st = true) /\
  loc_imageSize st =
    match first_readable E dir with
    | Some path => dimensions E path
    | None => mkSize 0 0
    end.
Proof.
  destruct (accumulated_spec E dir size) as (t & Hacc).
  destruct (detectLoop_spec E size (make_objp size) (length (imageFiles E dir))
              (imageFiles E dir) 0 initLocals)
    as (t' & st & Hloop & Hobj & Himg & Hset & Hsize & _).
  rewrite Hacc in Hloop. injection Hloop as _ <-.
  unfold contributing, first_readable.
  remember (imageFiles E dir) as images eqn:Himages. clear Himages Hacc.
  cbn in Hobj, Himg, Hset, Hsize. cbn zeta.
  repeat split; try assumption.
  - rewrite Hobj, Himg. now rewrite length_map.
  - rewrite Hset, Himg. clear.
    induction images as [|p l IH]; cbn; [intros H; now elim H|].
    unfold detected at 1. destruct (readable E p); cbn; [reflexivity|exact IH].
Qed.

Lemma harmless_readonly t : forallb harmless t = true -> forallb readonly t = true.
Proof.
  induction t as [|e t IH]; cbn [forallb]; [reflexivity|].
  intros [He Ht]%andb_prop. rewrite (IH Ht), andb_true_r.
  unfold harmless in He. unfold readonly. now apply andb_prop in He as [-> _].
Qed.

Lemma eval_calls_readonly n : forallb readonly (eval_calls n) = true.
Proof. unfold eval_calls. induction n as [|n IH]; [reflexivity|exact IH]. Qed.

Lemma eval_calls_no_refiner n : refiner_calls (eval_calls n) = [].
Proof. unfold eval_calls. induction n as [|n IH]; [reflexivity|exact IH]. Qed.

Lemma evalLoop_trace E objs imgs r : forall todo i total t v,
  evalLoop E objs imgs r i todo total = Some (t, v) -> t = eval_calls todo.
Proof.
  induction todo as [|todo IH]; intros i total t v H; cbn [evalLoop] in H.
  - now inv_ret H.
  - inv_bind H Ho. apply index_Some in Ho as [-> _].
    inv_bind H Hr. apply index_Some in Hr as [-> _].
    inv_bind H Ht. apply index_Some in Ht as [-> _].
    inv_emit H. inv_bind H Hi. apply index_Some in Hi as [-> _].
    inv_emit H. now rewrite (IH _ _ _ _ H).
Qed.

Lemma calibrateCamera_cases E dir size t r :
  calibrateCamera E dir size = Some (t, r) ->
  let st := accumulated E dir size in
  let so := cv_calibrateCamera E (objpoints st) (imgpoints st) (loc_imageSize st) in
  forallb readonly t = true /\
  refiner_calls t = map (refiner_call_for E size) (contributing E dir size) /\
  ( (imgpoints st = [] /\ r = initialResults size /\ forallb harmless t = true)
    \/ (imgpoints st <> [] /\ F64.to_bool (so_rms so) = false /\
        r = failedResults size so)
    \/ (imgpoints st <> [] /\ F64.to_bool (so_rms so) = true /\
        exists teval total,
          evalLoop E (objpoints st) (imgpoints st) (solvedResults size st so F64.zero)
            0 (length (objpoints st)) F64.zero = Some (teval, total) /\
          r = solvedResults size st so
                (F64.div total (F64.of_size (length (objpoints st))))) ).
Proof.
  intros H st so.
  destruct (accumulated_spec E dir size) as (tloop & Hacc). fold st in Hacc.
  destruct (accumulated_facts E dir size) as (Hobj & Himg & Hset & _).
  fold st in Hobj, Himg, Hset.
  destruct (detectLoop_spec E size (make_objp size) (length (imageFiles E dir))
              (imageFiles E dir) 0 initLocals)
    as (t' & st' & Hloop & _ & _ & _ & _ & Hharm & Hcalls).
  rewrite Hacc in Hloop. injection Hloop as <- <-.
  fold (contributing E dir size) in Hcalls.
  pose proof (harmless_readonly _ Hharm) as Hro.
  unfold calibrateCamera in H.
  do 3 inv_emit H. inv_bind H Hm. rewrite globAll_images in Hm. injection Hm as <- <-.
  destruct (is_empty (imageFiles E dir)) eqn:Hempty.
  - (* no image *)
    inv_emit H. inv_ret H.
    apply is_empty_nil in Hempty.
    assert (Hnone : imgpoints st = []).
    { rewrite Himg. unfold contributing. now rewrite Hempty. }
    unfold contributing. rewrite Hempty. cbn. repeat split. left. now repeat split.
  - inv_emit H. inv_bind H Hm. rewrite Hacc in Hm. injection Hm as <- <-.
    destruct (is_empty (objpoints st) || is_empty (imgpoints st)) eqn:Hnone.
    + (* no detection *)
      inv_emit H. inv_ret H.
      assert (Hnil : imgpoints st = []).
      { apply orb_prop in Hnone.
        destruct Hnone as [Ho%is_empty_nil|Hi%is_empty_nil]; [|assumption].
        rewrite Hobj in Ho. destruct (imgpoints st); [reflexivity|discriminate]. }
      rewrite !forallb_app, !refiner_calls_app, Hro, Hharm, Hcalls. cbn.
      rewrite app_nil_r. repeat split. left. now repeat split.
    + apply orb_false_elim in Hnone as [_ Hsome].
      assert (Hne : imgpoints st <> []).
      { intros Hnil. rewrite Hnil in Hsome. discriminate. }
      rewrite (Hset Hne) in H. cbn [negb] in H.
      do 2 inv_emit H. fold so in H. cbn [success] in H.
      destruct (F64.to_bool (so_rms so)) eqn:Hrms; cbn [negb] in H.
      * (* solved *)
        do 3 inv_emit H. inv_bind H Heval. inv_emit H. inv_ret H.
        cbn [cameraMatrix distCoeffs rvecs tvecs success imageSize numImagesUsed
             meanReprojectionError] in *.
        fold (solvedResults size st so F64.zero) in Heval.
        rename a into total.
        pose proof (evalLoop_trace _ _ _ _ _ _ _ _ _ Heval) as ->.
        rewrite !forallb_app, !refiner_calls_app, Hro, Hcalls,
          eval_calls_readonly, eval_calls_no_refiner. cbn.
        rewrite app_nil_r. repeat split.
        right; right. repeat split; [assumption|].
        exists (eval_calls (length (objpoints st))), total. now split.
      * (* the solver reports failure *)
        inv_emit H. inv_ret H.
        rewrite !forallb_app, !refiner_calls_app, Hro, Hcalls. cbn.
        rewrite app_nil_r. repeat split.
        right; left. now repeat split.
Qed.

(** Under the contract of the solver the program indexes its vectors within
    bounds: [calibrateCamera] returns. *)
Lemma calibrateCamera_returns E dir size :
  solver_poses E -> exists t r, calibrateCamera E dir size = Some (t, r).
Proof.
  intros Hposes.
  destruct (accumulated_spec E dir size) as (tloop & Hacc).
  destruct (accumulated_facts E dir size) as (Hobj & _).
  set (st := accumulated E dir size) in *.
  unfold calibrateCamera.
  rewrite !emit_bind, globAll_images, bind_value.
  destruct (is_empty (imageFiles E dir)); [eexists _, _; reflexivity|].
  rewrite ?emit_bind, Hacc, bind_value.
  destruct (is_empty (objpoints st) || is_empty (imgpoints st));
    [eexists _, _; reflexivity|].
  destruct (negb (imageSizeSet st)); [eexists _, _; reflexivity|].
  rewrite ?emit_bind. cbn [success].
  destruct (F64.to_bool (so_rms (cv_calibrateCamera E (objpoints st) (imgpoints st)
                                   (loc_imageSize st)))) eqn:Hrms;
    cbn [negb]; [|eexists _, _; reflexivity].
  destruct (Hposes _ _ _ Hrms) as [Hr Ht].
  rewrite ?emit_bind, evalLoop_spec; cbn [rvecs tvecs]; try assumption.
  - eexists _, _; reflexivity.
  - cbn. lia.
  - now rewrite Hobj, repeat_length.
Qed.

(** ** The object-point template *)

Lemma push_back_loop {A B : Type} (f : A -> B) (l : list A) : forall acc,
  fold_left (fun acc x => acc ++ [f x]) l acc = acc ++ map f l.
Proof.
  induction l as [|x l IH]; intros acc; cbn.
  - now rewrite app_nil_r.
  - now rewrite IH, <- app_assoc.
Qed.

Lemma objp_row_spec w acc i :
  objp_row w acc i = acc ++ map (template_point i) (int_range w).
Proof. unfold objp_row. apply (push_back_loop (template_point i)). Qed.

Lemma make_objp_rows size :
  make_objp size =
  flat_map (fun i => map (template_point i) (int_range (width size)))
           (int_range (height size)).
Proof.
  unfold make_objp.
  enough (H : forall l acc,
             fold_left (objp_row (width size)) l acc =
             acc ++ flat_map (fun i => map (template_point i) (int_range (width size))) l)
    by apply (H _ []).
  induction l as [|i l IH]; intros acc; cbn.
  - now rewrite app_nil_r.
  - now rewrite IH, objp_row_spec, <- app_assoc.
Qed.

Lemma int_range_length n : length (int_range n) = Z.to_nat n.
Proof. unfold int_range. now rewrite length_map, length_seq. Qed.

Lemma grid_length {A : Type} (row : Z -> list A) (W : nat) (l : list Z) :
  (forall i, length (row i) = W) ->
  length (flat_map row l) = (length l * W)%nat.
Proof.
  intros Hrow. induction l as [|i l IH]; cbn; [reflexivity|].
  now rewrite length_app, Hrow, IH.
Qed.

Lemma make_objp_length size :
  length (make_objp size) = (Z.to_nat (height size) * Z.to_nat (width size))%nat.
Proof.
  rewrite make_objp_rows, (grid_length _ (Z.to_nat (width size))).
  - now rewrite int_range_length.
  - intros i. now rewrite length_map, int_range_length.
Qed.

Lemma int_range_nth n k :
  (k < Z.to_nat n)%nat -> nth_error (int_range n) k = Some (Z.of_nat k).
Proof.
  intros Hk. unfold int_range.
  rewrite nth_error_map, nth_error_seq.
  destruct (Nat.ltb_spec k (Z.to_nat n)); [reflexivity|lia].
Qed.

Lemma grid_nth {A : Type} (row : Z -> list A) (W : nat) :
  (forall i, length (row i) = W) ->
  forall (l : list Z) k j i,
    nth_error l k = Some i -> (j < W)%nat ->
    nth_error (flat_map row l) (k * W + j) = nth_error (row i) j.
Proof.
  intros Hrow. induction l as [|x l IH]; intros [|k] j i Hk Hj; cbn in *; try discriminate.
  - injection Hk as ->. rewrite nth_error_app1; [reflexivity|]. now rewrite Hrow.
  - rewrite nth_error_app2; rewrite Hrow; [|lia].
    replace (W + k * W + j - W)%nat with (k * W + j)%nat by lia.
    now apply IH.
Qed.

Lemma make_objp_nth size i j :
  0 <= i < height size -> 0 <= j < width size ->
  nth_error (make_objp size) (Z.to_nat (i * width size + j)) = Some (template_point i j).
Proof.
  intros Hi Hj. rewrite make_objp_rows.
  replace (Z.to_nat (i * width size + j))
    with (Z.to_nat i * Z.to_nat (width size) + Z.to_nat j)%nat by nia.
  rewrite (grid_nth _ (Z.to_nat (width size)) ) with (i := i).
  - rewrite nth_error_map, int_range_nth by lia. cbn. f_equal. f_equal. lia.
  - intros r. now rewrite length_map, int_range_length.
  - rewrite int_range_nth by lia. f_equal. lia.
  - lia.
Qed.

Lemma make_objp_planar size :
  Forall (fun p => p3z p = S754_zero false) (make_objp size).
Proof.
  rewrite make_objp_rows. apply Forall_flat_map, Forall_forall. intros i _.
  apply Forall_map, Forall_forall. now intros j _.
Qed.

(** ** Signs in binary floating-point arithmetic *)

Section Rounding.
Variables prec emax : Z.

Lemma shr_1_nonneg mrs : 0 <= shr_m mrs -> 0 <= shr_m (shr_1 mrs).
Proof. destruct mrs as [[|[p|p|]|p] r s]; cbn; lia. Qed.

Lemma iter_shr_1_nonneg k : forall mrs,
  0 <= shr_m mrs -> 0 <= shr_m (iter_pos shr_1 k mrs).
Proof.
  induction k as [k IH|k IH|]; intros mrs H; cbn [iter_pos].
  - now apply IH, IH, shr_1_nonneg.
  - now apply IH, IH.
  - now apply shr_1_nonneg.
Qed.

Lemma shr_record_of_loc_m m l : shr_m (shr_record_of_loc m l) = m.
Proof. now destruct l as [|[]]. Qed.

Lemma shr_fexp_nonneg m e l :
  0 <= m -> 0 <= shr_m (fst (shr_fexp prec emax m e l)).
Proof.
  intros H. unfold shr_fexp, shr.
  destruct (fexp prec emax (Zdigits2 m + e) - e); cbn [fst];
    try apply iter_shr_1_nonneg; now rewrite shr_record_of_loc_m.
Qed.

Lemma round_nearest_even_nonneg m l : 0 <= m -> 0 <= round_nearest_even m l.
Proof.
  intros H. unfold round_nearest_even.
  destruct l as [|[]]; try destruct (Z.even m); lia.
Qed.

Lemma binary_round_aux_unsigned m e l :
  0 <= m -> unsigned (binary_round_aux prec emax false m e l).
Proof.
  intros H. unfold binary_round_aux.
  pose proof (shr_fexp_nonneg m e l H) as H1.
  destruct (shr_fexp prec emax m e l) as [mrs' e']. cbn [fst] in H1.
  pose proof (shr_fexp_nonneg _ e' loc_Exact
                (round_nearest_even_nonneg _ (loc_of_shr_record mrs') H1)) as H2.
  destruct (shr_fexp prec emax _ e' loc_Exact) as [mrs'' e'']. cbn [fst] in H2.
  destruct (shr_m mrs'') as [|p|p]; cbn; [reflexivity| |lia].
  now destruct (e'' <=? emax - prec).
Qed.

Lemma binary_round_unsigned m e : unsigned (binary_round prec emax false m e).
Proof.
  unfold binary_round. destruct (shl_align m e _) as [mz ez].
  now apply binary_round_aux_unsigned.
Qed.

Lemma unsigned_leb_zero x : unsigned x -> SFleb (S754_zero false) x = true.
Proof. destruct x as [s|s| |s m e]; cbn; try intros ->; now try reflexivity. Qed.

(** The sum of two values that are at least 0 is at least 0. *)
Lemma SFadd_nonneg x y :
  SFleb (S754_zero false) x = true -> SFleb (S754_zero false) y = true ->
  SFleb (S754_zero false) (SFadd prec emax x y) = true.
Proof.
  destruct x as [sx|[]| |[] mx ex], y as [sy|[]| |[] my ey];
    cbn [SFleb SFcompare]; try discriminate; intros _ _; try reflexivity.
  - now destruct sx, sy.
  - unfold SFadd. apply unsigned_leb_zero. cbn [cond_Zopp Z.add binary_normalize].
    apply binary_round_unsigned.
Qed.

(** A value that is at least 0 divided by a finite positive value is at
    least 0. *)
Lemma SFdiv_nonneg x my ey :
  SFleb (S754_zero false) x = true ->
  SFleb (S754_zero false) (SFdiv prec emax x (S754_finite false my ey)) = true.
Proof.
  destruct x as [sx|[]| |[] mx ex];
    cbn [SFleb SFcompare]; try discriminate; intros _; try reflexivity.
  unfold SFdiv. cbn [xorb].
  destruct (SFdiv_core_binary prec emax (Z.pos mx) ex (Z.pos my) ey)
    as [[mz ez] lz] eqn:Hcore.
  apply unsigned_leb_zero, binary_round_aux_unsigned.
  unfold SFdiv_core_binary in Hcore.
  set (m' := match _ - _ - _ with Z0 => _ | Zpos _ => _ | Zneg _ => _ end) in Hcore.
  assert (Hm' : 0 <= m').
  { subst m'. destruct (_ - _ - _); try lia. apply Z.shiftl_nonneg. lia. }
  pose proof (Z.div_pos m' (Z.pos my) Hm' ltac:(lia)) as Hq.
  unfold Z.div in Hq. destruct (Z.div_eucl m' (Z.pos my)) as [q r].
  now injection Hcore as <- _ _.
Qed.
End Rounding.

(** ** Conversion of a size to [double] *)

Lemma digits2_pos_bounds p :
  2 ^ (Z.pos (digits2_pos p) - 1) <= Z.pos p < 2 ^ Z.pos (digits2_pos p).
Proof.
  induction p as [p IH|p IH|]; cbn [digits2_pos].
  - rewrite Pos2Z.inj_succ.
    replace (Z.succ (Z.pos (digits2_pos p)) - 1) with (Z.succ (Z.pos (digits2_pos p) - 1)) by lia.
    rewrite !Z.pow_succ_r by lia. lia.
  - rewrite Pos2Z.inj_succ.
    replace (Z.succ (Z.pos (digits2_pos p)) - 1) with (Z.succ (Z.pos (digits2_pos p) - 1)) by lia.
    rewrite !Z.pow_succ_r by lia. lia.
  - cbn. lia.
Qed.

Lemma Zdigits2_unique m k :
  0 < k -> 2 ^ (k - 1) <= m < 2 ^ k -> Zdigits2 m = k.
Proof.
  intros Hk [Hlo Hhi].
  assert (Hm : 0 < m) by (pose proof (Z.pow_pos_nonneg 2 (k - 1)); lia).
  destruct m as [|p|p]; try lia. cbn [Zdigits2].
  pose proof (digits2_pos_bounds p) as [Hlo' Hhi'].
  set (d := Z.pos (digits2_pos p)) in *.
  assert (d - 1 < k) by (apply (Z.pow_lt_mono_r_iff 2); lia).
  assert (k - 1 < d) by (apply (Z.pow_lt_mono_r_iff 2); lia).
  lia.
Qed.

Lemma shr_1_digits mrs :
  0 <= shr_m mrs ->
  Zdigits2 (shr_m (shr_1 mrs)) = Z.max 0 (Zdigits2 (shr_m mrs) - 1).
Proof.
  destruct mrs as [[|[p|p|]|p] r s]; cbn [shr_m shr_1 Zdigits2 digits2_pos]; lia.
Qed.

Lemma iter_shr_1_digits k : forall mrs,
  0 <= shr_m mrs ->
  Zdigits2 (shr_m (iter_pos shr_1 k mrs)) = Z.max 0 (Zdigits2 (shr_m mrs) - Z.pos k).
Proof.
  induction k as [k IH|k IH|]; intros mrs H; cbn [iter_pos].
  - rewrite !IH, shr_1_digits by auto using iter_shr_1_nonneg, shr_1_nonneg. lia.
  - rewrite !IH by auto using iter_shr_1_nonneg. lia.
  - now apply shr_1_digits.
Qed.

(** A mantissa of 53 bits or more is brought to 53 bits. *)
Lemma shr_fexp_digits m e l :
  0 <= m -> 53 <= Zdigits2 m -> - 1074 <= Zdigits2 m + e - 53 ->
  0 <= shr_m (fst (shr_fexp 53 1024 m e l)) /\
  Zdigits2 (shr_m (fst (shr_fexp 53 1024 m e l))) = 53 /\
  snd (shr_fexp 53 1024 m e l) = e + Zdigits2 m - 53.
Proof.
  intros Hm Hd He. split; [now apply shr_fexp_nonneg|].
  unfold shr_fexp, shr, fexp, emin.
  destruct (Z.max (Zdigits2 m + e - 53) (3 - 1024 - 53) - e) as [|k|k] eqn:Hn;
    cbn [fst snd]; rewrite ?iter_shr_1_digits, shr_record_of_loc_m;
    rewrite ?shr_record_of_loc_m; lia.
Qed.

Lemma round_nearest_even_digits m l :
  0 <= m -> Zdigits2 m = 53 ->
  Zdigits2 (round_nearest_even m l) = 53 \/ Zdigits2 (round_nearest_even m l) = 54.
Proof.
  intros Hm Hd.
  assert (Hb : 2 ^ 52 <= m < 2 ^ 53).
  { destruct m as [|p|p]; cbn in Hd; try lia.
    pose proof (digits2_pos_bounds p) as Hb. cbn [Zdigits2] in Hd.
    rewrite Hd in Hb. exact Hb. }
  assert (Hsucc : Zdigits2 (m + 1) = 53 \/ Zdigits2 (m + 1) = 54).
  { destruct (Z.lt_ge_cases (m + 1) (2 ^ 53)).
    - left. apply Zdigits2_unique; lia.
    - right. apply Zdigits2_unique; lia. }
  unfold round_nearest_even.
  destruct l as [|[]]; try destruct (Z.even m); auto.
Qed.

Lemma binary_round_aux_finite mz ez :
  53 <= Z.pos (digits2_pos mz) ->
  - 1074 <= Z.pos (digits2_pos mz) + ez - 53 ->
  Z.pos (digits2_pos mz) + ez <= 1023 ->
  exists m e, binary_round_aux 53 1024 false (Z.pos mz) ez loc_Exact = S754_finite false m e.
Proof.
  intros Hd Hlo Hhi. unfold binary_round_aux.
  destruct (shr_fexp_digits (Z.pos mz) ez loc_Exact) as (H1 & Hd1 & He1);
    try (cbn [Zdigits2]; lia).
  destruct (shr_fexp 53 1024 (Z.pos mz) ez loc_Exact) as [mrs' e']. cbn [fst snd] in *.
  pose proof (round_nearest_even_nonneg _ (loc_of_shr_record mrs') H1) as H2.
  pose proof (round_nearest_even_digits _ (loc_of_shr_record mrs') H1 Hd1) as Hd2.
  set (m2 := round_nearest_even (shr_m mrs') (loc_of_shr_record mrs')) in *.
  cbn [Zdigits2] in He1.
  destruct (shr_fexp_digits m2 e' loc_Exact) as (H3 & Hd3 & He3); try lia.
  destruct (shr_fexp 53 1024 m2 e' loc_Exact) as [mrs'' e'']. cbn [fst snd] in *.
  destruct (shr_m mrs'') as [|m|m]; cbn [Zdigits2] in Hd3; try lia.
  destruct (Z.leb_spec e'' (1024 - 53)); [now eexists _, _|lia].
Qed.

Lemma shift_left_digits k : forall p,
  Z.pos (digits2_pos (Pos.iter xO p k)) = Z.pos (digits2_pos p) + Z.pos k.
Proof.
  induction k as [|k IH] using Pos.peano_ind; intros p.
  - cbn. lia.
  - rewrite Pos.iter_succ. cbn [digits2_pos]. rewrite Pos2Z.inj_succ, IH. lia.
Qed.

Lemma binary_round_finite p :
  Z.pos (digits2_pos p) <= 1023 ->
  exists m e, binary_round 53 1024 false p 0 = S754_finite false m e.
Proof.
  intros Hd. unfold binary_round, shl_align, fexp, emin.
  destruct (Z.max (Z.pos (digits2_pos p) + 0 - 53) (3 - 1024 - 53) - 0) as [|k|k] eqn:Hk.
  - apply binary_round_aux_finite; lia.
  - apply binary_round_aux_finite; lia.
  - apply binary_round_aux_finite; rewrite shift_left_digits; lia.
Qed.

(** ** Conversion of an [int] to [float] *)

Lemma shift_left_value k : forall p,
  Z.pos (Pos.iter xO p k) = Z.pos p * 2 ^ Z.pos k.
Proof.
  induction k as [|k IH] using Pos.peano_ind; intros p.
  - cbn. lia.
  - rewrite Pos.iter_succ, Pos2Z.inj_xO, IH, Pos2Z.inj_succ, Z.pow_succ_r by lia. lia.
Qed.

(** A mantissa of exactly 24 bits goes through rounding unchanged. *)
Lemma binary_round_aux_24 mz ez :
  Z.pos (digits2_pos mz) = 24 -> - 149 <= ez <= 104 ->
  binary_round_aux 24 128 false (Z.pos mz) ez loc_Exact = S754_finite false mz ez.
Proof.
  intros Hd He. unfold binary_round_aux, shr_fexp, shr, fexp, emin.
  cbn [Zdigits2 shr_record_of_loc]. rewrite Hd.
  replace (Z.max (24 + ez - 24) (3 - 128 - 24) - ez) with 0 by lia.
  cbn [shr_m loc_of_shr_record round_nearest_even Zdigits2]. rewrite Hd.
  replace (Z.max (24 + ez - 24) (3 - 128 - 24) - ez) with 0 by lia.
  cbn [shr_m]. destruct (Z.leb_spec ez (128 - 24)); [reflexivity|lia].
Qed.

(** Integers below 2^24 are [float]s: the conversion is exact. *)
Lemma of_int_exact z : 0 <= z < 2 ^ 24 -> represents (F32.of_int z) z.
Proof.
  intros Hz. unfold F32.of_int, binary_normalize.
  destruct z as [|p|p]; try lia; [reflexivity|].
  pose proof (digits2_pos_bounds p) as [Hlo Hhi].
  assert (Hd : Z.pos (digits2_pos p) - 1 < 24) by (apply (Z.pow_lt_mono_r_iff 2); lia).
  unfold binary_round, shl_align, fexp, emin, F32.prec, F32.emax.
  destruct (Z.max (Z.pos (digits2_pos p) + 0 - 24) (3 - 128 - 24) - 0) as [|k|k] eqn:Hk;
    try lia.
  - rewrite binary_round_aux_24 by lia. cbn. lia.
  - rewrite binary_round_aux_24 by (rewrite ?shift_left_digits; lia).
    cbn [represents]. rewrite shift_left_value. split; [lia|].
    f_equal. f_equal. lia.
Qed.

(** The number of elements of a vector, as a [double], is finite and
    positive as soon as the vector is not empty. *)
Lemma of_size_positive n :
  (0 < n)%nat -> Z.of_nat n < 2 ^ 64 ->
  exists m e, F64.of_size n = S754_finite false m e.
Proof.
  intros Hn Hmax. unfold F64.of_size, binary_normalize.
  destruct (Z.of_nat n) as [|p|p] eqn:Hp; try lia.
  apply binary_round_finite.
  pose proof (digits2_pos_bounds p) as [Hlo _].
  assert (Z.pos (digits2_pos p) - 1 < 64) by (apply (Z.pow_lt_mono_r_iff 2); lia).
  lia.
Qed.

(** ** The toy world meets the contracts *)

Lemma of_size_nonneg n : F64.nonneg (F64.of_size n).
Proof.
  unfold F64.nonneg, F64.leb, F64.of_size, binary_normalize.
  destruct (Z.of_nat n) as [|p|p] eqn:Hp; try lia; [reflexivity|].
  apply unsigned_leb_zero, binary_round_unsigned.
Qed.

Lemma toy_solver_poses files e c o rms : solver_poses (toyEnv files e c o rms).
Proof. intros objs imgs sz _. cbn. now rewrite !length_map. Qed.

Lemma toy_detector_full files e c o rms : detector_full (toyEnv files e c o rms).
Proof.
  intros gray sz flags. cbn.
  destruct (img_data gray) as [|[|[| |]|] ?]; cbn; try discriminate.
  destruct ((0 <? width sz) && (0 <? height sz)) eqn:Hpos; cbn; [|discriminate].
  intros _. rewrite repeat_length. apply andb_prop in Hpos. nia.
Qed.

Lemma toy_refiner_keeps_length files e c o rms :
  refiner_keeps_length (toyEnv files e c o rms).
Proof. now intros gray corners win zero crit. Qed.

Lemma toy_projection_keeps_length files e c o rms :
  projection_keeps_length (toyEnv files e c o rms).
Proof. intros o' rvec tvec K D. cbn. now rewrite length_map. Qed.

Lemma toy_norm_nonneg files e c o rms : norm_nonneg (toyEnv files e c o rms).
Proof. intros a b _. cbn. apply of_size_nonneg. Qed.

(** ** Counts *)

(** [numImagesUsed] is an [int]: a count beyond [INT_MAX] does not fit. *)
Example to_int_wraps : to_int (INT_MAX + 1) = INT_MIN.
Proof. reflexivity. Qed.

Lemma to_int_small z : 0 <= z <= INT_MAX -> to_int z = z.
Proof.
  unfold to_int, INT_MAX. intros H.
  rewrite Z.mod_small; lia.
Qed.

Lemma observations_bounded E dir size :
  (length (imgpoints (accumulated E dir size)) <= length (imageFiles E dir))%nat.
Proof.
  destruct (accumulated_facts E dir size) as (_ & -> & _).
  rewrite length_map. apply filter_length_le.
Qed.

(** C1. When calibration succeeds, there are as many rotation vectors and
    as many translation vectors as accumulated observations, and the field
    [numImagesUsed] holds that number.  The solver is taken to keep its
    contract (one pose per view), and the images to be few enough for their
    number to fit the [int] field. *)
Theorem pose_observation_counts E dir size t r :
  solver_poses E ->
  Z.of_nat (length (imageFiles E dir)) <= INT_MAX ->
  calibrateCamera E dir size = Some (t, r) ->
  success r = true ->
  length (rvecs r) = length (imgpoints (accumulated E dir size)) /\
  length (tvecs r) = length (imgpoints (accumulated E dir size)) /\
  length (objpoints (accumulated E dir size)) = length (imgpoints (accumulated E dir size)) /\
  numImagesUsed r = Z.of_nat (length (imgpoints (accumulated E dir size))).
Proof.
  intros Hposes Hfit Hrun Hok.
  destruct (calibrateCamera_cases _ _ _ _ _ Hrun) as (_ & _ & Hcases).
  destruct (accumulated_facts E dir size) as (Hobj & _).
  pose proof (observations_bounded E dir size) as Hle.
  set (st := accumulated E dir size) in *.
  assert (Hlen : length (objpoints st) = length (imgpoints st))
    by now rewrite Hobj, repeat_length.
  destruct Hcases as [(_ & -> & _)|[(_ & _ & ->)|(_ & Hrms & teval & total & _ & ->)]];
    try discriminate.
  destruct (Hposes _ _ _ Hrms) as [Hr Ht]. cbn [rvecs tvecs numImagesUsed solvedResults].
  rewrite Hr, Ht, Hlen, to_int_small by lia. now repeat split.
Qed.

Lemma pose_observation_counts_witness :
  length (rvecs (value_of (calibrateCamera toyWorld "./images" toySize) (initialResults toySize)))
    = 2%nat /\
  numImagesUsed (value_of (calibrateCamera toyWorld "./images" toySize) (initialResults toySize))
    = 2.
Proof.
  destruct (pose_observation_counts toyWorld "./images" toySize
              (trace_of (calibrateCamera toyWorld "./images" toySize))
              (value_of (calibrateCamera toyWorld "./images" toySize) (initialResults toySize)))
    as (Hr & _ & _ & Hn).
  - apply toy_solver_poses.
  - vm_compute. discriminate.
  - vm_compute. reflexivity.
  - vm_compute. reflexivity.
  - split; [exact Hr | exact Hn].
Defined.

(** C3. For grid dimensions [width] and [height] (counts, hence not
    negative) the template holds [width * height] points; the point at
    position [i * width + j] is [(j, i, 0)], so the order is row-major and
    every [z] is 0; on a grid of less than 2^24 rows and columns the
    coordinates are exactly the integers [j] and [i], so that neighbours are
    one unit apart; and the object points paired with the accumulated
    observations are copies of that one template, one per observation. *)
Theorem template_row_major E dir size :
  0 <= width size -> 0 <= height size ->
  Z.of_nat (length (make_objp size)) = width size * height size /\
  (forall i j, 0 <= i < height size -> 0 <= j < width size ->
     nth_error (make_objp size) (Z.to_nat (i * width size + j))
       = Some (mkPoint3f (F32.of_int j) (F32.of_int i) (F32.of_int 0))) /\
  Forall (fun p => p3z p = S754_zero false) (make_objp size) /\
  (width size < 2 ^ 24 -> height size < 2 ^ 24 ->
   forall i j, 0 <= i < height size -> 0 <= j < width size ->
     represents (F32.of_int j) j /\ represents (F32.of_int i) i /\
     represents (F32.of_int (j + 1)) (j + 1) /\ represents (F32.of_int (i + 1)) (i + 1)) /\
  objpoints (accumulated E dir size)
    = repeat (make_objp size) (length (imgpoints (accumulated E dir size))).
Proof.
  intros Hw Hh. split; [|split; [|split; [|split]]].
  - rewrite make_objp_length, Nat2Z.inj_mul, !Z2Nat.id by assumption. apply Z.mul_comm.
  - intros i j Hi Hj. now apply make_objp_nth.
  - apply make_objp_planar.
  - intros Hwmax Hhmax i j Hi Hj.
    split; [|split; [|split]]; apply of_int_exact; lia.
  - apply accumulated_facts.
Qed.

Lemma template_row_major_witness :
  Z.of_nat (length (make_objp (mkSize 7 10))) = 70 /\
  nth_error (make_objp (mkSize 7 10)) 23
    = Some (mkPoint3f (F32.of_int 2) (F32.of_int 3) (F32.of_int 0)) /\
  objpoints (accumulated toyWorld "./images" (mkSize 7 10))
    = [make_objp (mkSize 7 10); make_objp (mkSize 7 10)].
Proof.
  destruct (template_row_major toyWorld "./images" (mkSize 7 10))
    as (Hlen & Hnth & _ & _ & Hpair); cbn [width height]; try lia.
  split; [|split].
  - exact Hlen.
  - apply (Hnth 3 2); cbn [width height]; lia.
  - exact Hpair.
Defined.

(** C7. When the correspondence set ends up empty, [calibrateCamera]
    returns the initial record, with [success] false, after an error line;
    its trace holds no call of the solver. *)
Theorem empty_set_never_solved E dir size :
  imgpoints (accumulated E dir size) = [] ->
  exists t,
    calibrateCamera E dir size = Some (t, initialResults size) /\
    success (initialResults size) = false /\
    existsb is_solver_call t = false /\
    (In (Err (MsgNoImagesFound dir)) t \/ In (Err MsgNoCornersDetected) t).
Proof.
  intros Hnil.
  destruct (accumulated_spec E dir size) as (tloop & Hacc).
  assert (Hret : exists t,
             calibrateCamera E dir size = Some (t, initialResults size) /\
             (In (Err (MsgNoImagesFound dir)) t \/ In (Err MsgNoCornersDetected) t)).
  { unfold calibrateCamera.
    rewrite !emit_bind, globAll_images, bind_value.
    destruct (is_empty (imageFiles E dir)).
    - eexists. split; [reflexivity|]. left. cbn. auto 20.
    - rewrite ?emit_bind, Hacc, bind_value, Hnil, orb_true_r. cbn [is_empty].
      eexists. split; [reflexivity|]. right.
      cbn. do 9 right. apply in_or_app. right. now left. }
  destruct Hret as (t & Hrun & Hmsg). exists t.
  destruct (calibrateCamera_cases _ _ _ _ _ Hrun) as (_ & _ & Hcases).
  destruct Hcases as [(_ & _ & Hharm)|[(Hne & _)|(Hne & _)]]; try now elim Hne.
  repeat split; try assumption.
  clear - Hharm. induction t as [|e t IH]; [reflexivity|].
  cbn in *. apply andb_prop in Hharm as [He Ht]. rewrite (IH Ht), orb_false_r.
  unfold harmless in He. apply andb_prop in He as [_ He]. now destruct (is_solver_call e).
Qed.

Lemma empty_set_never_solved_witness :
  exists t,
    calibrateCamera (toyEnv [("./images/b.png", blank 480 640)] true true true one)
      "./images" toySize = Some (t, initialResults toySize) /\
    existsb is_solver_call t = false.
Proof.
  destruct (empty_set_never_solved
              (toyEnv [("./images/b.png", blank 480 640)] true true true one)
              "./images" toySize) as (t & Hrun & _ & Hno & _).
  - reflexivity.
  - now exists t.
Defined.

Lemma observations_full E dir size :
  detector_full E ->
  refiner_keeps_length E ->
  Forall (fun obs => Z.of_nat (length obs) = width size * height size)
         (imgpoints (accumulated E dir size)).
Proof.
  intros Hdet Href.
  destruct (accumulated_facts E dir size) as (_ & Himg & _).
  rewrite Himg. apply Forall_map, Forall_forall. intros path Hin.
  apply filter_In in Hin as [_ Hd]. unfold detected in Hd.
  apply andb_prop in Hd as [_ Hfound].
  unfold refined. rewrite Href. now apply Hdet.
Qed.

(** C10. The loop adds an observation exactly for the images that are read
    and on which detection reports success, in the order of the
    enumeration; every observation has [width * height] image points; an
    image on which detection fails adds nothing, whatever corners the
    detector left, and the images after it are processed as if it had not
    been there.  The detector and the refiner are taken to keep their
    contracts. *)
Theorem observations_only_on_success E dir size :
  detector_full E ->
  refiner_keeps_length E ->
  imgpoints (accumulated E dir size)
    = map (refined E size) (filter (detected E size) (imageFiles E dir)) /\
  Forall (fun obs => Z.of_nat (length obs) = width size * height size)
         (imgpoints (accumulated E dir size)) /\
  (forall before path after n i st,
     detected E size path = false ->
     imgpoints (value_of (detectLoop E size (make_objp size) n i
                            (before ++ path :: after) st) st)
       = imgpoints st
           ++ map (refined E size) (filter (detected E size) before)
           ++ map (refined E size) (filter (detected E size) after)).
Proof.
  intros Hdet Href.
  destruct (accumulated_facts E dir size) as (_ & Himg & _).
  split; [|split].
  - exact Himg.
  - now apply observations_full.
  - intros before path after n i st Hfail.
    destruct (detectLoop_spec E size (make_objp size) n (before ++ path :: after) i st)
      as (t & st' & -> & _ & Himg' & _).
    cbn [value_of]. rewrite Himg', filter_app. cbn [filter]. rewrite Hfail.
    now rewrite map_app.
Qed.

Lemma observations_only_on_success_witness :
  imgpoints (accumulated toyWorld "./images" toySize)
    = [repeat toyPoint 6; repeat toyPoint 6] /\
  Forall (fun obs => Z.of_nat (length obs) = 6)
         (imgpoints (accumulated toyWorld "./images" toySize)).
Proof.
  destruct (observations_only_on_success toyWorld "./images" toySize)
    as (Hobs & Hlen & _).
  - apply toy_detector_full.
  - apply toy_refiner_keeps_length.
  - split; [exact Hobs | exact Hlen].
Defined.

(** ** The reprojection error *)

(** Dividing by the size of an empty vector gives no number: this is why
    the grid dimensions are taken to be at least 1 below. *)
Example zero_by_zero : F64.div F64.zero (F64.of_size 0) = S754_nan.
Proof. reflexivity. Qed.

Example six_is_exact : F64.of_size 6 = S754_finite false 6755399441055744 (-50).
Proof. reflexivity. Qed.

Lemma fold_add_nonneg l : forall acc,
  Forall F64.nonneg l -> F64.nonneg acc -> F64.nonneg (fold_left F64.add l acc).
Proof.
  induction l as [|x l IH]; intros acc Hl Hacc; cbn [fold_left]; [assumption|].
  inversion Hl as [|? ? Hx Hl']; subst.
  apply IH; [assumption|]. now apply SFadd_nonneg.
Qed.

Lemma div_by_size_nonneg x n :
  F64.nonneg x -> (0 < n)%nat -> Z.of_nat n <= SIZE_MAX ->
  F64.nonneg (F64.div x (F64.of_size n)).
Proof.
  intros Hx Hn Hmax.
  destruct (of_size_positive n) as (m & e & ->); [assumption|unfold SIZE_MAX in Hmax; lia|].
  now apply SFdiv_nonneg.
Qed.

(** With one projected point per object point and as many object points as
    observed points, the errors the loop computes are the per-image errors
    of the specification. *)
Lemma views_errors E r objp :
  projection_keeps_length E ->
  forall imgs,
    Forall (fun obs => length obs = length objp) imgs ->
    map (loop_error E r) (views (repeat objp (length imgs)) imgs r)
      = per_image_errors E r objp imgs.
Proof.
  intros Hproj imgs Hlen. unfold views, per_image_errors.
  generalize (combine (rvecs r) (tvecs r)).
  induction Hlen as [|obs imgs Hobs Hlen IH]; intros poses; [reflexivity|].
  destruct poses as [|[rvec tvec] poses]; [reflexivity|].
  cbn [length repeat combine map]. rewrite IH.
  f_equal. unfold loop_error, per_image_error. now rewrite Hproj, Hobs.
Qed.

Lemma per_image_errors_length E r objp imgs :
  length (rvecs r) = length imgs -> length (tvecs r) = length imgs ->
  length (per_image_errors E r objp imgs) = length imgs.
Proof.
  intros Hr Ht. unfold per_image_errors.
  rewrite length_map, !length_combine. lia.
Qed.

Lemma per_image_errors_nonneg E r objp imgs :
  projection_keeps_length E -> norm_nonneg E ->
  (0 < length objp)%nat -> Z.of_nat (length objp) <= SIZE_MAX ->
  Forall (fun obs => length obs = length objp) imgs ->
  Forall F64.nonneg (per_image_errors E r objp imgs).
Proof.
  intros Hproj Hnorm Hpos Hmax Hlen. unfold per_image_errors.
  apply Forall_map, Forall_forall. intros [obs [rvec tvec]] Hin.
  apply in_combine_l in Hin. rewrite Forall_forall in Hlen. specialize (Hlen _ Hin).
  unfold per_image_error. apply div_by_size_nonneg; rewrite ?Hlen; try assumption.
  apply Hnorm. now rewrite Hproj.
Qed.

(** C2. After a successful calibration over N >= 1 observations, the error
    the loop computes for observation i is the L2 norm between the observed
    and the reprojected points divided by the number of points, the field
    [meanReprojectionError] is the arithmetic mean of the N per-image
    errors, and the per-image errors and their mean are at least 0.  The library functions are taken
    to keep their contracts; the grid dimensions are counts of at least 1,
    and the vectors have sizes a [size_t] can hold. *)
Theorem mean_reprojection_error E dir size t r :
  solver_poses E -> detector_full E -> refiner_keeps_length E ->
  projection_keeps_length E -> norm_nonneg E ->
  0 < width size -> 0 < height size ->
  width size * height size <= SIZE_MAX ->
  Z.of_nat (length (imageFiles E dir)) <= SIZE_MAX ->
  calibrateCamera E dir size = Some (t, r) ->
  success r = true ->
  (1 <= length (imgpoints (accumulated E dir size)))%nat /\
  map (loop_error E r)
      (views (objpoints (accumulated E dir size)) (imgpoints (accumulated E dir size)) r)
    = per_image_errors E r (make_objp size) (imgpoints (accumulated E dir size)) /\
  length (per_image_errors E r (make_objp size) (imgpoints (accumulated E dir size)))
    = length (imgpoints (accumulated E dir size)) /\
  meanReprojectionError r
    = arithmetic_mean
        (per_image_errors E r (make_objp size) (imgpoints (accumulated E dir size))) /\
  Forall F64.nonneg
    (per_image_errors E r (make_objp size) (imgpoints (accumulated E dir size))) /\
  F64.nonneg (meanReprojectionError r).
Proof.
  intros Hposes Hdet Href Hproj Hnorm Hw Hh Hpts Himgs Hrun Hok.
  destruct (calibrateCamera_cases _ _ _ _ _ Hrun) as (_ & _ & Hcases).
  destruct (accumulated_facts E dir size) as (Hobj & _).
  pose proof (observations_full E dir size Hdet Href) as Hfull.
  pose proof (observations_bounded E dir size) as Hle.
  set (st := accumulated E dir size) in *.
  set (objp := make_objp size) in *.
  assert (Hobjp : Z.of_nat (length objp) = width size * height size).
  { subst objp. rewrite make_objp_length, Nat2Z.inj_mul, !Z2Nat.id by lia.
    apply Z.mul_comm. }
  assert (Hlen : Forall (fun obs => length obs = length objp) (imgpoints st)).
  { eapply Forall_impl; [|exact Hfull]. cbn. intros obs Hobs. lia. }
  destruct Hcases as [(_ & -> & _)|[(_ & _ & ->)|(Hne & Hrms & teval & total & Heval & ->)]];
    try discriminate.
  destruct (Hposes _ _ _ Hrms) as [Hr Ht].
  assert (Hn : length (objpoints st) = length (imgpoints st))
    by now rewrite Hobj, repeat_length.
  set (so := cv_calibrateCamera E _ _ _) in *.
  set (r0 := solvedResults size st so F64.zero) in *.
  assert (Hloop : map (loop_error E r0) (views (objpoints st) (imgpoints st) r0)
                  = per_image_errors E r0 objp (imgpoints st)).
  { rewrite Hobj. apply (views_errors E r0 objp Hproj _ Hlen). }
  assert (Htotal : total
            = fold_left F64.add (per_image_errors E r0 objp (imgpoints st)) F64.zero).
  { rewrite evalLoop_spec in Heval; cbn [rvecs tvecs solvedResults r0];
      try (assumption || lia || congruence).
    injection Heval as _ <-.
    cbn [skipn]. rewrite firstn_all2 by (unfold views; rewrite !length_combine;
      cbn [rvecs tvecs solvedResults r0]; lia).
    now rewrite Hloop. }
  change (per_image_errors E (solvedResults size st so _) objp (imgpoints st))
    with (per_image_errors E r0 objp (imgpoints st)).
  change (map (loop_error E (solvedResults size st so _))
              (views (objpoints st) (imgpoints st) (solvedResults size st so _)))
    with (map (loop_error E r0) (views (objpoints st) (imgpoints st) r0)).
  cbn [meanReprojectionError solvedResults].
  assert (Hcount : length (per_image_errors E r0 objp (imgpoints st)) = length (imgpoints st)).
  { apply per_image_errors_length; cbn [rvecs tvecs solvedResults r0]; congruence. }
  assert (Hone : (1 <= length (imgpoints st))%nat).
  { destruct (imgpoints st); [now elim Hne|cbn; lia]. }
  assert (Herrs : Forall F64.nonneg (per_image_errors E r0 objp (imgpoints st))).
  { apply per_image_errors_nonneg; try assumption; lia. }
  split; [exact Hone|]. split; [exact Hloop|]. split; [exact Hcount|].
  split; [|split; [exact Herrs|]].
  - unfold arithmetic_mean. now rewrite Hcount, Htotal, Hn.
  - apply div_by_size_nonneg; [|lia|lia].
    rewrite Htotal. apply fold_add_nonneg; [exact Herrs|reflexivity].
Qed.

Lemma mean_reprojection_error_witness :
  meanReprojectionError
    (value_of (calibrateCamera toyWorld "./images" toySize) (initialResults toySize))
    = arithmetic_mean [one; one] /\
  F64.nonneg
    (meanReprojectionError
       (value_of (calibrateCamera toyWorld "./images" toySize) (initialResults toySize))).
Proof.
  destruct (mean_reprojection_error toyWorld "./images" toySize
              (trace_of (calibrateCamera toyWorld "./images" toySize))
              (value_of (calibrateCamera toyWorld "./images" toySize) (initialResults toySize)))
    as (_ & _ & _ & Hmean & _ & Hpos).
  - apply toy_solver_poses.
  - apply toy_detector_full.
  - apply toy_refiner_keeps_length.
  - apply toy_projection_keeps_length.
  - apply toy_norm_nonneg.
  - reflexivity.
  - reflexivity.
  - vm_compute. discriminate.
  - vm_compute. discriminate.
  - vm_compute. reflexivity.
  - vm_compute. reflexivity.
  - split; [exact Hmean | exact Hpos].
Defined.

(** ** The image size *)






(** ** main *)

Lemma saveCalibrationResultsToJSON_spec E r out :
  saveCalibrationResultsToJSON E r out =
  Some (if fs_open_write E out
        then [FsWrite out (json_of_results r); Out (MsgSavedTo out)]
        else [Err (MsgCouldNotWrite out)], tt).
Proof. unfold saveCalibrationResultsToJSON. now destruct (fs_open_write E out). Qed.

Lemma globAll_readonly dir :
  forallb readonly
    (map (fun pattern => Call (CallGlob (dir ++ "/" ++ pattern)%string)) patterns) = true.
Proof. reflexivity. Qed.

Lemma showUndistortedImage_spec E r dir :
  exists t, showUndistortedImage E r dir = Some (t, tt) /\ forallb readonly t = true.
Proof.
  unfold showUndistortedImage.
  destruct (negb (success r)); [now eexists|].
  rewrite globAll_images, bind_value.
  destruct (imageFiles E dir) as [|first rest].
  - eexists. split; [reflexivity|].
    rewrite forallb_app, globAll_readonly. reflexivity.
  - rewrite emit_bind. destruct (img_empty (cv_imread E first)).
    + eexists. split; [reflexivity|].
      rewrite forallb_app, globAll_readonly. reflexivity.
    + eexists. split; [reflexivity|].
      rewrite forallb_app, globAll_readonly. reflexivity.
Qed.

(** The trace of what [main] does after a successful calibration. *)
Lemma run_after_calibration E cfg tc r :
  fs_exists E (imageDir cfg) = Some true ->
  calibrateCamera E (imageDir cfg)
    (mkSize (checkerboardWidth cfg) (checkerboardHeight cfg)) = Some (tc, r) ->
  run E cfg =
  Some (tc ++
        (if success r
         then trace_of (saveCalibrationResultsToJSON E r (outputFile cfg)) ++
              (if showDisplay cfg
               then trace_of (showUndistortedImage E r (imageDir cfg))
               else [])
         else []) ++ [],
        Exit (if success r then 0 else 1)).
Proof.
  intros Hdir Hcal. unfold run. rewrite Hdir, Hcal, bind_value.
  destruct (success r).
  - rewrite saveCalibrationResultsToJSON_spec, bind_value.
    destruct (showUndistortedImage_spec E r (imageDir cfg)) as (ts & Hshow & _).
    destruct (showDisplay cfg); [rewrite Hshow|]; reflexivity.
  - reflexivity.
Qed.

Lemma no_artifact_app t1 t2 : no_artifact t1 -> no_artifact t2 -> no_artifact (t1 ++ t2).
Proof. unfold no_artifact. intros H1 H2. now rewrite forallb_app, H1, H2. Qed.

Lemma readonly_no_artifact t : forallb readonly t = true -> no_artifact t.
Proof.
  unfold no_artifact. induction t as [|e t IH]; cbn [forallb]; [reflexivity|].
  intros [He Ht]%andb_prop. rewrite (IH Ht), andb_true_r.
  unfold readonly in He. now apply andb_prop in He as [-> _].
Qed.

Lemma no_artifact_existsb t : no_artifact t -> existsb is_write t = false.
Proof.
  unfold no_artifact. induction t as [|e t IH]; cbn; [reflexivity|].
  intros [He Ht]%andb_prop. rewrite (IH Ht). now destruct (is_write e).
Qed.

Lemma display_trace_readonly E cfg r :
  forallb readonly
    (if showDisplay cfg then trace_of (showUndistortedImage E r (imageDir cfg)) else [])
  = true.
Proof.
  destruct (showDisplay cfg); [|reflexivity].
  destruct (showUndistortedImage_spec E r (imageDir cfg)) as (ts & -> & Hro). exact Hro.
Qed.

(** C9. After a successful calibration, when the output file cannot be
    opened, the function that saves prints an error line and writes
    nothing; the display step, when enabled, receives the same record; no
    artifact is written along the run and the exit code is 0. *)
Theorem write_failure_keeps_success E cfg tc r :
  fs_exists E (imageDir cfg) = Some true ->
  calibrateCamera E (imageDir cfg)
    (mkSize (checkerboardWidth cfg) (checkerboardHeight cfg)) = Some (tc, r) ->
  success r = true ->
  fs_open_write E (outputFile cfg) = false ->
  saveCalibrationResultsToJSON E r (outputFile cfg)
    = Some ([Err (MsgCouldNotWrite (outputFile cfg))], tt) /\
  exists t,
    run E cfg = Some (t, Exit 0) /\
    t = tc ++ [Err (MsgCouldNotWrite (outputFile cfg))] ++
        (if showDisplay cfg
         then trace_of (showUndistortedImage E r (imageDir cfg)) else []) /\
    In (Err (MsgCouldNotWrite (outputFile cfg))) t /\
    no_artifact t.
Proof.
  intros Hdir Hcal Hok Hopen.
  rewrite saveCalibrationResultsToJSON_spec, Hopen. split; [reflexivity|].
  eexists. split; [|split; [reflexivity|split]].
  - rewrite (run_after_calibration E cfg tc r Hdir Hcal), Hok.
    rewrite saveCalibrationResultsToJSON_spec, Hopen. cbn [trace_of].
    now rewrite app_nil_r.
  - apply in_or_app. right. now left.
  - destruct (calibrateCamera_cases _ _ _ _ _ Hcal) as (Hro & _).
    apply no_artifact_app; [now apply readonly_no_artifact|].
    apply no_artifact_app; [reflexivity|].
    apply readonly_no_artifact, display_trace_readonly.
Qed.

Lemma write_failure_keeps_success_witness :
  exists t, run readOnlyWorld toyConfig = Some (t, Exit 0) /\ no_artifact t.
Proof.
  pose proof (write_failure_keeps_success readOnlyWorld toyConfig
                (trace_of (calibrateCamera readOnlyWorld "./images" toySize))
                (value_of (calibrateCamera readOnlyWorld "./images" toySize)
                          (initialResults toySize))) as H.
  assert (Hdir : fs_exists readOnlyWorld (imageDir toyConfig) = Some true) by reflexivity.
  assert (Hcal : calibrateCamera readOnlyWorld (imageDir toyConfig)
                   (mkSize (checkerboardWidth toyConfig) (checkerboardHeight toyConfig))
                 = Some (trace_of (calibrateCamera readOnlyWorld "./images" toySize),
                         value_of (calibrateCamera readOnlyWorld "./images" toySize)
                                  (initialResults toySize)))
    by (vm_compute; reflexivity).
  assert (Hok : success (value_of (calibrateCamera readOnlyWorld "./images" toySize)
                                  (initialResults toySize)) = true)
    by (vm_compute; reflexivity).
  destruct (H Hdir Hcal Hok eq_refl) as (_ & t & Hrun & _ & _ & Hno).
  exists t. split; [exact Hrun | exact Hno].
Defined.

(** C5, amended.  A run whose image directory exists ends with code 1 and
    without artifact when calibration fails, that is when the
    correspondence set is empty (no image, or no detection) or the solver
    reports failure; it ends with code 0 when calibration succeeds, and
    then the artifact is written exactly when the output file can be
    opened. *)
Theorem exit_code_and_artifact E cfg :
  solver_poses E ->
  fs_exists E (imageDir cfg) = Some true ->
  exists tc r t code,
    calibrateCamera E (imageDir cfg)
      (mkSize (checkerboardWidth cfg) (checkerboardHeight cfg)) = Some (tc, r) /\
    run E cfg = Some (t, Exit code) /\
    (success r = false <->
       imgpoints (accumulated E (imageDir cfg)
                    (mkSize (checkerboardWidth cfg) (checkerboardHeight cfg))) = [] \/
       F64.to_bool
         (so_rms
            (cv_calibrateCamera E
               (objpoints (accumulated E (imageDir cfg)
                             (mkSize (checkerboardWidth cfg) (checkerboardHeight cfg))))
               (imgpoints (accumulated E (imageDir cfg)
                             (mkSize (checkerboardWidth cfg) (checkerboardHeight cfg))))
               (loc_imageSize (accumulated E (imageDir cfg)
                                 (mkSize (checkerboardWidth cfg) (checkerboardHeight cfg))))))
         = false) /\
    (success r = false -> code = 1 /\ no_artifact t) /\
    (success r = true ->
       code = 0 /\ existsb is_write t = fs_open_write E (outputFile cfg)).
Proof.
  intros Hposes Hdir.
  set (size := mkSize (checkerboardWidth cfg) (checkerboardHeight cfg)).
  destruct (calibrateCamera_returns E (imageDir cfg) size Hposes) as (tc & r & Hcal).
  exists tc, r. eexists _, _. split; [exact Hcal|].
  split; [exact (run_after_calibration E cfg tc r Hdir Hcal)|].
  destruct (calibrateCamera_cases _ _ _ _ _ Hcal) as (Hro & _ & Hcases).
  fold size in Hcases. apply readonly_no_artifact in Hro.
  split; [|split].
  - destruct Hcases as [(Hnil & -> & _)|[(Hne & Hrms & ->)|(Hne & Hrms & te & tot & _ & ->)]];
      cbn [success initialResults failedResults solvedResults]; split; auto.
    + discriminate.
    + intros [Hnil|Hfail]; [now elim Hne|congruence].
  - intros ->. split; [reflexivity|]. rewrite !app_nil_r. exact Hro.
  - intros ->. split; [reflexivity|].
    rewrite app_nil_r, !existsb_app, (no_artifact_existsb _ Hro).
    rewrite (no_artifact_existsb _ (readonly_no_artifact _ (display_trace_readonly E cfg r))).
    rewrite saveCalibrationResultsToJSON_spec. cbn [trace_of orb].
    now destruct (fs_open_write E (outputFile cfg)).
Qed.

Lemma exit_code_and_artifact_witness :
  exists t, run toyWorld toyConfig = Some (t, Exit 0) /\ existsb is_write t = true.
Proof.
  destruct (exit_code_and_artifact toyWorld toyConfig
              (toy_solver_poses threeImages true true true one) eq_refl)
    as (tc & r & t & code & Hcal & Hrun & _ & _ & Hok).
  assert (Hr : success r = true).
  { replace r with (value_of (calibrateCamera toyWorld (imageDir toyConfig)
                      (mkSize (checkerboardWidth toyConfig) (checkerboardHeight toyConfig)))
                      (initialResults toySize))
      by (rewrite Hcal; reflexivity).
    vm_compute. reflexivity. }
  destruct (Hok Hr) as [Hcode Hwritten].
  exists t. split; [rewrite <- Hcode; exact Hrun | exact Hwritten].
Defined.

(** C5 as stated fails: with an output file that cannot be opened, a run
    whose calibration succeeds exits with code 0 and writes no artifact. *)
Lemma success_without_artifact : ~ success_writes_artifact readOnlyWorld toyConfig.
Proof.
  intros Hclaim.
  assert (Hcal : calibrateCamera readOnlyWorld (imageDir toyConfig)
                   (mkSize (checkerboardWidth toyConfig) (checkerboardHeight toyConfig))
                 = Some (trace_of (calibrateCamera readOnlyWorld "./images" toySize),
                         value_of (calibrateCamera readOnlyWorld "./images" toySize)
                                  (initialResults toySize)))
    by (vm_compute; reflexivity).
  assert (Hok : success (value_of (calibrateCamera readOnlyWorld "./images" toySize)
                                  (initialResults toySize)) = true)
    by (vm_compute; reflexivity).
  assert (Hrun : run readOnlyWorld toyConfig
                 = Some (trace_of (run readOnlyWorld toyConfig), Exit 0))
    by (vm_compute; reflexivity).
  assert (Hno : existsb is_write (trace_of (run readOnlyWorld toyConfig)) = false)
    by (vm_compute; reflexivity).
  assert (H : false = true).
  { rewrite <- Hno. exact (proj2 (Hclaim _ _ _ _ Hcal Hok Hrun)). }
  discriminate H.
Qed.

(** C6, amended.  When the test on the image directory does not find it,
    the run never reaches the calibration: nothing of the vision library
    is called and no artifact is written.  If the test itself throws, the
    exception is not caught and the process is terminated, nothing
    printed and no directory made.  If the test answers that the directory
    does not exist, the program calls [create_directories] on it, once:
    when the call returns, the two lines are printed and the exit code is
    0; when it throws, an error line is printed and the exit code is 1. *)
Theorem missing_directory E cfg :
  fs_exists E (imageDir cfg) <> Some true ->
  run E cfg =
    match fs_exists E (imageDir cfg) with
    | None => Some ([], Terminated)
    | Some _ =>
        if fs_create_directories E (imageDir cfg)
        then Some ([FsCreateDirectories (imageDir cfg) true;
                    Out (MsgCreatedDirectory (imageDir cfg)); Out MsgPlaceImages], Exit 0)
        else Some ([FsCreateDirectories (imageDir cfg) false;
                    Err (MsgCouldNotCreateDirectory (imageDir cfg))], Exit 1)
    end /\
  existsb is_call (trace_of (run E cfg)) = false /\
  no_artifact (trace_of (run E cfg)).
Proof.
  intros Hdir. unfold run.
  destruct (fs_exists E (imageDir cfg)) as [[|]|]; [now elim Hdir| |now repeat split].
  now destruct (fs_create_directories E (imageDir cfg)).
Qed.

Lemma missing_directory_witness :
  run freshWorld toyConfig
    = Some ([FsCreateDirectories "./images" true; Out (MsgCreatedDirectory "./images");
             Out MsgPlaceImages], Exit 0) /\
  run unsearchableWorld toyConfig = Some ([], Terminated).
Proof.
  split.
  - refine (proj1 (missing_directory freshWorld toyConfig _)). discriminate.
  - refine (proj1 (missing_directory unsearchableWorld toyConfig _)). discriminate.
Defined.

(** C6 as stated fails: when the directory is missing and cannot be
    created, the run exits with code 1 and the directory is not created. *)
Lemma missing_directory_may_fail : ~ missing_directory_exits_zero lockedWorld toyConfig.
Proof.
  intros Hclaim.
  assert (Hdir : fs_exists lockedWorld (imageDir toyConfig) <> Some true) by discriminate.
  destruct (Hclaim Hdir) as (t & Hrun & _).
  assert (Hreal : run lockedWorld toyConfig
                  = Some ([FsCreateDirectories "./images" false;
                           Err (MsgCouldNotCreateDirectory "./images")], Exit 1))
    by (vm_compute; reflexivity).
  assert (H : Some ([FsCreateDirectories "./images" false;
                     Err (MsgCouldNotCreateDirectory "./images")], Exit 1)
              = Some (t, Exit 0)).
  { rewrite <- Hreal. exact Hrun. }
  discriminate H.
Qed.

(** C8, amended.  For every detected corner list the program calls the
    refiner once, in the order of the enumeration, with the half-window
    (11, 11), which makes a search window of 23 x 23 pixels, the zero zone
    (-1, -1) and the criterion "30 iterations or a change below 0.001"; what
    the refiner leaves is stored as the observation at the same position,
    and has the length of its input as soon as the refiner keeps its
    contract. *)
Theorem refiner_arguments E dir size t r :
  refiner_keeps_length E ->
  calibrateCamera E dir size = Some (t, r) ->
  refiner_calls t
    = map (fun path =>
             CallCornerSubPix (snd (detection E size path)) (mkSize 11 11)
               (mkSize (-1) (-1))
               (mkTermCriteria (Z.lor TermCriteria_EPS TermCriteria_MAX_ITER) 30 eps_0_001))
          (contributing E dir size) /\
  Forall (fun c => refiner_window c = Some (mkSize 23 23)) (refiner_calls t) /\
  imgpoints (accumulated E dir size)
    = map (fun path =>
             cv_cornerSubPix E (gray_of E path) (snd (detection E size path))
               (mkSize 11 11) (mkSize (-1) (-1))
               (mkTermCriteria (Z.lor TermCriteria_EPS TermCriteria_MAX_ITER) 30 eps_0_001))
          (contributing E dir size) /\
  Forall2 (fun path obs => length obs = length (snd (detection E size path)))
          (contributing E dir size) (imgpoints (accumulated E dir size)).
Proof.
  intros Href Hrun.
  destruct (calibrateCamera_cases _ _ _ _ _ Hrun) as (_ & Hcalls & _).
  destruct (accumulated_facts E dir size) as (_ & Himg & _).
  split; [exact Hcalls|]. split; [|split; [exact Himg|]].
  - rewrite Hcalls. apply Forall_map, Forall_forall. now intros path _.
  - rewrite Himg. clear - Href. induction (contributing E dir size) as [|path l IH]; cbn [map].
    + constructor.
    + constructor; [apply Href|exact IH].
Qed.

Lemma refiner_arguments_witness :
  refiner_calls (trace_of (calibrateCamera toyWorld "./images" toySize))
    = [CallCornerSubPix (repeat toyPoint 6) (mkSize 11 11) (mkSize (-1) (-1))
         (mkTermCriteria 3 30 eps_0_001);
       CallCornerSubPix (repeat toyPoint 6) (mkSize 11 11) (mkSize (-1) (-1))
         (mkTermCriteria 3 30 eps_0_001)].
Proof.
  pose proof (refiner_arguments toyWorld "./images" toySize
                (trace_of (calibrateCamera toyWorld "./images" toySize))
                (value_of (calibrateCamera toyWorld "./images" toySize)
                          (initialResults toySize))
                (toy_refiner_keeps_length threeImages true true true one)) as H.
  assert (Hcal : calibrateCamera toyWorld "./images" toySize
                 = Some (trace_of (calibrateCamera toyWorld "./images" toySize),
                         value_of (calibrateCamera toyWorld "./images" toySize)
                                  (initialResults toySize)))
    by (vm_compute; reflexivity).
  destruct (H Hcal) as (Hcalls & _).
  rewrite Hcalls. vm_compute. reflexivity.
Defined.

(** C8 as stated fails: the window the refiner searches in a run is not
    11 x 11 pixels. *)
Lemma refiner_window_is_not_11 :
  ~ refiner_window_11 (trace_of (calibrateCamera toyWorld "./images" toySize)).
Proof.
  intros Hclaim.
  assert (Hcalls : refiner_calls (trace_of (calibrateCamera toyWorld "./images" toySize))
                   = [CallCornerSubPix (repeat toyPoint 6) winSize zeroZone criteria;
                      CallCornerSubPix (repeat toyPoint 6) winSize zeroZone criteria])
    by (vm_compute; reflexivity).
  specialize (Hclaim (CallCornerSubPix (repeat toyPoint 6) winSize zeroZone criteria)).
  rewrite Hcalls in Hclaim.
  specialize (Hclaim (or_introl eq_refl)).
  discriminate Hclaim.
Qed.

(** ** From the command line to the run *)

Lemma main_configured E programName args tp cfg :
  parseArgs programName args defaultConfig = Some (tp, Configured cfg) ->
  main E (programName :: args) =
  match run E cfg with
  | Some (t, outcome) => Some (tp ++ t, outcome)
  | None => None
  end.
Proof. intros Hparse. unfold main. now rewrite Hparse, bind_value. Qed.

Example parse_options :
  parseArgs "calib" ["-i"; "shots"; "-cw"; "9"; "--checkerboard_height"; "6"; "--no-display"]
    defaultConfig
  = Some ([], Configured (mkConfig "shots" "calibration_results.json" 9 6 false)).
Proof. reflexivity. Qed.

Example parse_missing_value :
  parseArgs "calib" ["-o"] defaultConfig
  = Some ([Err (MsgUnknownArgument "-o"); Out (MsgUsage "calib")], Returned 1).
Proof. reflexivity. Qed.

Example parse_bad_number :
  parseArgs "calib" ["-cw"; "seven"] defaultConfig = Some ([], Thrown).
Proof. reflexivity. Qed.

(** * Further properties of the program *)

(** ** The command line *)

(** X1. The pass over the arguments always ends.  It prints nothing when it
    yields a configuration or when [std::stoi] throws; when it ends the
    program it has printed the usage, alone with code 0 (help), or after an
    error line naming one of the arguments with code 1. *)
Theorem parseArgs_outcomes programName : forall args cfg,
  exists t parsed,
    parseArgs programName args cfg = Some (t, parsed) /\
    match parsed with
    | Configured _ | Thrown => t = []
    | Returned code =>
        (code = 0 /\ t = [Out (MsgUsage programName)]) \/
        (code = 1 /\ exists arg, In arg args /\
                     t = [Err (MsgUnknownArgument arg); Out (MsgUsage programName)])
    end.
Proof.
  intros args. remember (length args) as n eqn:Hn.
  revert args Hn. induction n as [n IH] using lt_wf_ind. intros args Hn cfg.
  assert (IH' : forall args' cfg', (length args' < length args)%nat ->
            exists t parsed,
              parseArgs programName args' cfg' = Some (t, parsed) /\
              match parsed with
              | Configured _ | Thrown => t = []
              | Returned code =>
                  (code = 0 /\ t = [Out (MsgUsage programName)]) \/
                  (code = 1 /\ exists arg, In arg args' /\
                     t = [Err (MsgUnknownArgument arg); Out (MsgUsage programName)])
              end).
  { intros args' cfg' Hlt. apply (IH (length args')); [lia|reflexivity]. }
  clear IH Hn n.
  assert (Hweaken : forall (args' : list string) t parsed,
            incl args' args ->
            match parsed with
            | Configured _ | Thrown => t = []
            | Returned code =>
                (code = 0 /\ t = [Out (MsgUsage programName)]) \/
                (code = 1 /\ exists arg, In arg args' /\
                   t = [Err (MsgUnknownArgument arg); Out (MsgUsage programName)])
            end ->
            match parsed with
            | Configured _ | Thrown => t = []
            | Returned code =>
                (code = 0 /\ t = [Out (MsgUsage programName)]) \/
                (code = 1 /\ exists arg, In arg args /\
                   t = [Err (MsgUnknownArgument arg); Out (MsgUsage programName)])
            end).
  { intros args' t [c|code|] Hincl Hs; try assumption.
    destruct Hs as [Hs|(Hc & arg & Hin & Ht)]; [now left|right].
    split; [assumption|]. exists arg. split; [now apply Hincl|assumption]. }
  destruct args as [|arg rest]; cbn [parseArgs].
  - now exists [], (Configured cfg).
  - destruct ((arg =? "-h")%string || (arg =? "--help")%string).
    { eexists _, _. split; [reflexivity|]. now left. }
    assert (Hunknown :
              exists t parsed,
                unknownArgument programName arg = Some (t, parsed) /\
                match parsed with
                | Configured _ | Thrown => t = []
                | Returned code =>
                    (code = 0 /\ t = [Out (MsgUsage programName)]) \/
                    (code = 1 /\ exists a, In a (arg :: rest) /\
                       t = [Err (MsgUnknownArgument a); Out (MsgUsage programName)])
                end).
    { eexists _, _. split; [reflexivity|]. right. split; [reflexivity|].
      exists arg. split; [now left|reflexivity]. }
    assert (Hrec : forall args' cfg', incl args' (arg :: rest) ->
              (length args' < length (arg :: rest))%nat ->
              exists t parsed,
                parseArgs programName args' cfg' = Some (t, parsed) /\
                match parsed with
                | Configured _ | Thrown => t = []
                | Returned code =>
                    (code = 0 /\ t = [Out (MsgUsage programName)]) \/
                    (code = 1 /\ exists a, In a (arg :: rest) /\
                       t = [Err (MsgUnknownArgument a); Out (MsgUsage programName)])
                end).
    { intros args' cfg' Hincl Hlt.
      destruct (IH' args' cfg' Hlt) as (t & parsed & Hp & Hs).
      exists t, parsed. split; [assumption|]. now apply (Hweaken args'). }
    assert (Hrest : incl rest (arg :: rest)) by (intros x Hx; now right).
    destruct rest as [|value rest'].
    + destruct (arg =? "--no-display")%string; [|exact Hunknown].
      apply Hrec; [exact Hrest|cbn; lia].
    + assert (Hrest' : incl rest' (arg :: value :: rest'))
        by (intros x Hx; right; now right).
      repeat match goal with
             | |- context [if ?c then _ else _] => destruct c
             | |- context [match stoi ?v with _ => _ end] => destruct (stoi v)
             end;
        try exact Hunknown;
        try (apply Hrec; [assumption|cbn; lia]).
      all: now exists [], Thrown.
Qed.

Lemma parseArgs_unfold programName args cfg :
  parseArgs programName args cfg =
  match args with
  | [] => ret (Configured cfg)
  | arg :: rest =>
      if (arg =? "-h")%string || (arg =? "--help")%string then
        printUsage programName ;;
        ret (Returned 0)
      else
        let noDisplay :=
          if (arg =? "--no-display")%string then
            parseArgs programName rest
              (mkConfig (imageDir cfg) (outputFile cfg) (checkerboardWidth cfg)
                        (checkerboardHeight cfg) false)
          else unknownArgument programName arg in
        match rest with
        | [] => noDisplay
        | value :: rest' =>
            if (arg =? "-i")%string || (arg =? "--image_dir")%string then
              parseArgs programName rest'
                (mkConfig value (outputFile cfg) (checkerboardWidth cfg)
                          (checkerboardHeight cfg) (showDisplay cfg))
            else if (arg =? "-o")%string || (arg =? "--output_file")%string then
              parseArgs programName rest'
                (mkConfig (imageDir cfg) value (checkerboardWidth cfg)
                          (checkerboardHeight cfg) (showDisplay cfg))
            else if (arg =? "-cw")%string || (arg =? "--checkerboard_width")%string then
              match stoi value with
              | Some v =>
                  parseArgs programName rest'
                    (mkConfig (imageDir cfg) (outputFile cfg) v
                              (checkerboardHeight cfg) (showDisplay cfg))
              | None => ret Thrown
              end
            else if (arg =? "-ch")%string || (arg =? "--checkerboard_height")%string then
              match stoi value with
              | Some v =>
                  parseArgs programName rest'
                    (mkConfig (imageDir cfg) (outputFile cfg) (checkerboardWidth cfg)
                              v (showDisplay cfg))
              | None => ret Thrown
              end
            else noDisplay
        end
  end.
Proof. destruct args; reflexivity. Qed.

(** X2. Options are read from left to right and compose: when a first list
    of arguments yields a configuration, reading that list followed by
    more arguments is reading the further arguments from that
    configuration; nothing has been printed meanwhile. *)
Theorem parseArgs_app programName : forall args1 args2 cfg t1 cfg1,
  parseArgs programName args1 cfg = Some (t1, Configured cfg1) ->
  t1 = [] /\
  parseArgs programName (args1 ++ args2) cfg = parseArgs programName args2 cfg1.
Proof.
  intros args1. remember (length args1) as n eqn:Hn.
  revert args1 Hn. induction n as [n IH] using lt_wf_ind.
  intros args1 Hn args2 cfg t1 cfg1 Hparse.
  assert (IH' : forall args' cfg', (length args' < length args1)%nat ->
            parseArgs programName args' cfg' = Some (t1, Configured cfg1) ->
            t1 = [] /\
            parseArgs programName (args' ++ args2) cfg' = parseArgs programName args2 cfg1).
  { intros args' cfg' Hlt. apply (IH (length args')); [lia|reflexivity]. }
  clear IH Hn n.
  rewrite parseArgs_unfold in Hparse.
  destruct args1 as [|arg rest]; cbn [app].
  - unfold ret in Hparse. injection Hparse as <- <-. now split.
  - rewrite (parseArgs_unfold programName (arg :: rest ++ args2)).
    destruct ((arg =? "-h")%string || (arg =? "--help")%string) eqn:Hhelp;
      [discriminate|].
    destruct rest as [|value rest']; cbn [app].
    + destruct (arg =? "--no-display")%string eqn:Hnd; [|discriminate].
      rewrite parseArgs_unfold in Hparse. unfold ret in Hparse.
      injection Hparse as <- <-. split; [reflexivity|].
      apply String.eqb_eq in Hnd. subst arg.
      destruct args2 as [|value rest']; reflexivity.
    + repeat match type of Hparse with
             | context [if ?c then _ else _] => destruct c
             | context [match stoi ?v with _ => _ end] => destruct (stoi v)
             end;
        try discriminate;
        refine (IH' _ _ _ Hparse); cbn [length]; lia.
Qed.

Lemma parseArgs_app_witness :
  parseArgs "calib" (["-i"; "shots"] ++ ["-i"; "other"; "--no-display"]) defaultConfig
  = parseArgs "calib" ["-i"; "other"; "--no-display"]
      (mkConfig "shots" "calibration_results.json" 7 10 true).
Proof.
  destruct (parseArgs_app "calib" ["-i"; "shots"] ["-i"; "other"; "--no-display"]
              defaultConfig [] (mkConfig "shots" "calibration_results.json" 7 10 true)
              eq_refl) as [_ H].
  exact H.
Defined.

Lemma stoi_range s v : stoi s = Some v -> INT_MIN <= v <= INT_MAX.
Proof.
  unfold stoi.
  destruct (match skip_spaces s with
            | String "-"%char rest => (true, rest)
            | String "+"%char rest => (false, rest)
            | _ => (false, skip_spaces s)
            end) as [negative s'].
  destruct (read_digits s' 0 false) as [d seen].
  destruct (seen && (INT_MIN <=? (if negative then - d else d))
            && ((if negative then - d else d) <=? INT_MAX)) eqn:Hok; [|discriminate].
  intros H. injection H as <-.
  apply andb_prop in Hok as [Hok Hmax]. apply andb_prop in Hok as [_ Hmin]. lia.
Qed.

(** X3. The board dimensions of a configuration read from the command line
    are values of type [int] whenever those of the starting configuration
    are: a number outside [int] never reaches the program, [std::stoi]
    throws on it. *)
Theorem parseArgs_int_dimensions programName : forall args cfg t cfg',
  INT_MIN <= checkerboardWidth cfg <= INT_MAX ->
  INT_MIN <= checkerboardHeight cfg <= INT_MAX ->
  parseArgs programName args cfg = Some (t, Configured cfg') ->
  INT_MIN <= checkerboardWidth cfg' <= INT_MAX /\
  INT_MIN <= checkerboardHeight cfg' <= INT_MAX.
Proof.
  intros args. remember (length args) as n eqn:Hn.
  revert args Hn. induction n as [n IH] using lt_wf_ind.
  intros args Hn cfg t cfg' Hw Hh Hparse.
  assert (IH' : forall args0 cfg0, (length args0 < length args)%nat ->
            INT_MIN <= checkerboardWidth cfg0 <= INT_MAX ->
            INT_MIN <= checkerboardHeight cfg0 <= INT_MAX ->
            parseArgs programName args0 cfg0 = Some (t, Configured cfg') ->
            INT_MIN <= checkerboardWidth cfg' <= INT_MAX /\
            INT_MIN <= checkerboardHeight cfg' <= INT_MAX).
  { intros args0 cfg0 Hlt. apply (IH (length args0)); [lia|reflexivity]. }
  clear IH Hn n.
  rewrite parseArgs_unfold in Hparse.
  destruct args as [|arg rest].
  - unfold ret in Hparse. injection Hparse as _ <-. now split.
  - destruct ((arg =? "-h")%string || (arg =? "--help")%string); [discriminate|].
    destruct rest as [|value rest'].
    + destruct (arg =? "--no-display")%string; [|discriminate].
      rewrite parseArgs_unfold in Hparse. unfold ret in Hparse.
      injection Hparse as _ <-. now split.
    + repeat match type of Hparse with
             | context [if ?c then _ else _] => destruct c
             | context [match stoi ?v with _ => _ end] =>
                 let Hs := fresh "Hstoi" in
                 destruct (stoi v) eqn:Hs; [apply stoi_range in Hs|]
             end;
        try discriminate;
        (refine (IH' _ _ _ _ _ Hparse); cbn [length checkerboardWidth checkerboardHeight];
         (lia || assumption)).
Qed.

Lemma parseArgs_int_dimensions_witness :
  INT_MIN <= 9 <= INT_MAX /\ INT_MIN <= 6 <= INT_MAX.
Proof.
  apply (parseArgs_int_dimensions "calib" ["-cw"; "9"; "-ch"; "6"] defaultConfig []
           (mkConfig "./images" "calibration_results.json" 9 6 true)).
  - vm_compute. split; discriminate.
  - vm_compute. split; discriminate.
  - reflexivity.
Defined.

(** ** Reading the trace of [calibrateCamera] *)

Lemma imread_calls_app t1 t2 : imread_calls (t1 ++ t2) = imread_calls t1 ++ imread_calls t2.
Proof. unfold imread_calls. now rewrite flat_map_app. Qed.

Lemma glob_calls_app t1 t2 : glob_calls (t1 ++ t2) = glob_calls t1 ++ glob_calls t2.
Proof. unfold glob_calls. now rewrite flat_map_app. Qed.

Lemma solver_calls_app t1 t2 : solver_calls (t1 ++ t2) = solver_calls t1 ++ solver_calls t2.
Proof. unfold solver_calls. now rewrite flat_map_app. Qed.

Lemma progress_lines_app t1 t2 :
  progress_lines (t1 ++ t2) = progress_lines t1 ++ progress_lines t2.
Proof. unfold progress_lines. now rewrite flat_map_app. Qed.



Lemma error_lines_app t1 t2 : error_lines (t1 ++ t2) = error_lines t1 ++ error_lines t2.
Proof. unfold error_lines. now rewrite flat_map_app. Qed.

Lemma detector_calls_app t1 t2 :
  detector_calls (t1 ++ t2) = (detector_calls t1 + detector_calls t2)%nat.
Proof. unfold detector_calls. now rewrite filter_app, length_app. Qed.

(** One turn of the loop reads its image once, prints its progress line
    and calls the detector when the image could be read. *)
Lemma processImage_reads E size objp n i path st :
  exists t st',
    processImage E size objp n i path st = Some (t, st') /\
    imread_calls t = [path] /\
    progress_lines t = [((i + 1)%nat, n, path)] /\
    detector_calls t = (if readable E path then 1 else 0)%nat /\
    glob_calls t = [] /\ solver_calls t = [] /\ error_lines t = [] /\
    existsb is_display_call t = false.
Proof.
  unfold processImage, readable.
  destruct (img_empty (cv_imread E path)); cbn [negb].
  - eexists _, _. split; [reflexivity|]. now repeat split.
  - destruct (cv_findChessboardCorners E (cv_cvtColor E (cv_imread E path)) size detect_flags)
      as [[] corners]; eexists _, _; (split; [reflexivity|]); now repeat split.
Qed.

Lemma detectLoop_reads E size objp n : forall images i st,
  exists t st',
    detectLoop E size objp n i images st = Some (t, st') /\
    imread_calls t = images /\
    progress_lines t = map (fun '(k, path) => (k, n, path))
                           (combine (seq (i + 1) (length images)) images) /\
    detector_calls t = length (filter (readable E) images) /\
    glob_calls t = [] /\ solver_calls t = [] /\ error_lines t = [] /\
    existsb is_display_call t = false.
Proof.
  induction images as [|path images IH]; intros i st; cbn [detectLoop].
  - exists [], st. now repeat split.
  - destruct (processImage_reads E size objp n i path st)
      as (t1 & st1 & -> & Hr1 & Hp1 & Hd1 & Hg1 & Hs1 & He1 & Hw1).
    destruct (IH (S i) st1)
      as (t2 & st2 & Hloop & Hr2 & Hp2 & Hd2 & Hg2 & Hs2 & He2 & Hw2).
    rewrite bind_value, Hloop. exists (t1 ++ t2), st2. split; [reflexivity|].
    rewrite imread_calls_app, progress_lines_app, detector_calls_app, glob_calls_app,
      solver_calls_app, error_lines_app, existsb_app.
    rewrite Hr1, Hr2, Hp1, Hp2, Hd1, Hd2, Hg1, Hg2, Hs1, Hs2, He1, He2, Hw1, Hw2.
    cbn [length seq combine map filter app].
    destruct (readable E path); cbn [length]; repeat split; reflexivity.
Qed.

(** The trace and the result of [calibrateCamera], path by path. *)
Lemma calibrateCamera_trace E dir size t r :
  calibrateCamera E dir size = Some (t, r) ->
  let images := imageFiles E dir in
  let st := accumulated E dir size in
  let so := cv_calibrateCamera E (objpoints st) (imgpoints st) (loc_imageSize st) in
  let n := length (objpoints st) in
  (images = [] /\ r = initialResults size /\
   t = prologue dir size ++ [Err (MsgNoImagesFound dir)])
  \/
  exists tloop,
    detectLoop E size (make_objp size) (length images) 0 images initLocals
      = Some (tloop, st) /\
    images <> [] /\
    ( (imgpoints st = [] /\ r = initialResults size /\
       t = prologue dir size ++ Out (MsgFoundImages (length images)) :: tloop
           ++ [Err MsgNoCornersDetected])
      \/
      (imgpoints st <> [] /\ F64.to_bool (so_rms so) = false /\
       r = failedResults size so /\
       t = prologue dir size ++ Out (MsgFoundImages (length images)) :: tloop
           ++ [Out (MsgPerformingCalibration n);
               Call (CallCalibrateCamera n (loc_imageSize st));
               Err MsgCalibrationFailed])
      \/
      (imgpoints st <> [] /\ F64.to_bool (so_rms so) = true /\
       exists total,
         evalLoop E (objpoints st) (imgpoints st) (solvedResults size st so F64.zero)
           0 n F64.zero = Some (eval_calls n, total) /\
         r = solvedResults size st so (F64.div total (F64.of_size n)) /\
         t = prologue dir size ++ Out (MsgFoundImages (length images)) :: tloop
             ++ [Out (MsgPerformingCalibration n);
                 Call (CallCalibrateCamera n (loc_imageSize st));
                 Out MsgCalibrationSuccessful;
                 Out (MsgCameraMatrix (so_cameraMatrix so));
                 Out (MsgDistCoeffs (so_distCoeffs so))]
             ++ eval_calls n
             ++ [Out (MsgMeanError (F64.div total (F64.of_size n)))]) ).
Proof.
  intros H images st so n.
  destruct (accumulated_spec E dir size) as (tloop & Hacc). fold st images in Hacc.
  destruct (accumulated_facts E dir size) as (Hobj & Himg & Hset & _).
  fold st in Hobj, Himg, Hset.
  unfold calibrateCamera in H.
  do 3 inv_emit H. inv_bind H Hm. rewrite globAll_images in Hm. injection Hm as <- <-.
  fold images in H.
  destruct (is_empty images) eqn:Hempty.
  - inv_emit H. inv_ret H. apply is_empty_nil in Hempty. left.
    split; [assumption|]. split; [reflexivity|].
    unfold prologue. cbn [app]. rewrite <- ?app_assoc. cbn [app]. reflexivity.
  - assert (Hsome : images <> []).
    { intros Hnil. rewrite Hnil in Hempty. discriminate. }
    inv_emit H. inv_bind H Hm. rewrite Hacc in Hm. injection Hm as <- <-.
    right. exists tloop. split; [exact Hacc|]. split; [exact Hsome|].
    destruct (is_empty (objpoints st) || is_empty (imgpoints st)) eqn:Hnone.
    + inv_emit H. inv_ret H. left.
      assert (Hnil : imgpoints st = []).
      { apply orb_prop in Hnone.
        destruct Hnone as [Ho%is_empty_nil|Hi%is_empty_nil]; [|assumption].
        rewrite Hobj in Ho. destruct (imgpoints st); [reflexivity|discriminate]. }
      split; [assumption|]. split; [reflexivity|].
      unfold prologue. cbn [app]. rewrite <- ?app_assoc. cbn [app]. reflexivity.
    + apply orb_false_elim in Hnone as [_ Hsome'].
      assert (Hne : imgpoints st <> []).
      { intros Hnil. rewrite Hnil in Hsome'. discriminate. }
      rewrite (Hset Hne) in H. cbn [negb] in H.
      do 2 inv_emit H. fold so n in H. cbn [success] in H. right.
      destruct (F64.to_bool (so_rms so)) eqn:Hrms; cbn [negb] in H.
      * do 3 inv_emit H. inv_bind H Heval. inv_emit H. inv_ret H.
        cbn [cameraMatrix distCoeffs rvecs tvecs success imageSize numImagesUsed
             meanReprojectionError] in *.
        fold (solvedResults size st so F64.zero) in Heval.
        rename a into total.
        pose proof (evalLoop_trace _ _ _ _ _ _ _ _ _ Heval) as ->.
        right. split; [assumption|]. split; [reflexivity|].
        exists total. split; [exact Heval|]. split; [reflexivity|].
        unfold prologue. cbn [app]. rewrite <- ?app_assoc. cbn [app]. reflexivity.
      * inv_emit H. inv_ret H. left.
        split; [assumption|]. split; [reflexivity|]. split; [reflexivity|].
        unfold prologue. cbn [app]. rewrite <- ?app_assoc. cbn [app]. reflexivity.
Qed.

Lemma eval_calls_readings n :
  imread_calls (eval_calls n) = [] /\ glob_calls (eval_calls n) = [] /\
  progress_lines (eval_calls n) = [] /\ detector_calls (eval_calls n) = 0%nat /\
  solver_calls (eval_calls n) = [] /\ error_lines (eval_calls n) = [] /\
  existsb is_display_call (eval_calls n) = false.
Proof. unfold eval_calls. induction n as [|n IH]; [now repeat split|exact IH]. Qed.

(** The loop of a run, with what its trace shows. *)
Lemma loop_readings E dir size tloop :
  detectLoop E size (make_objp size) (length (imageFiles E dir)) 0
    (imageFiles E dir) initLocals = Some (tloop, accumulated E dir size) ->
  imread_calls tloop = imageFiles E dir /\
  progress_lines tloop
    = map (fun '(k, path) => (k, length (imageFiles E dir), path))
          (combine (seq 1 (length (imageFiles E dir))) (imageFiles E dir)) /\
  detector_calls tloop = length (filter (readable E) (imageFiles E dir)) /\
  glob_calls tloop = [] /\ solver_calls tloop = [] /\ error_lines tloop = [] /\
  existsb is_display_call tloop = false.
Proof.
  intros Hloop.
  destruct (detectLoop_reads E size (make_objp size) (length (imageFiles E dir))
              (imageFiles E dir) 0 initLocals) as (t & st & Hl & H).
  rewrite Hloop in Hl. injection Hl as <- _. exact H.
Qed.

(** X4. [calibrateCamera] asks for the five patterns in the order jpg,
    jpeg, png, bmp, tiff; it reads every file found exactly once, in that
    order, announcing it as number k of n, and calls the detector once per
    image that could be read. *)
Theorem every_image_read_once E dir size t r :
  calibrateCamera E dir size = Some (t, r) ->
  glob_calls t
    = [(dir ++ "/*.jpg")%string; (dir ++ "/*.jpeg")%string; (dir ++ "/*.png")%string;
       (dir ++ "/*.bmp")%string; (dir ++ "/*.tiff")%string] /\
  imread_calls t = imageFiles E dir /\
  progress_lines t
    = map (fun '(k, path) => (k, length (imageFiles E dir), path))
          (combine (seq 1 (length (imageFiles E dir))) (imageFiles E dir)) /\
  detector_calls t = length (filter (readable E) (imageFiles E dir)).
Proof.
  intros Hrun.
  destruct (calibrateCamera_trace _ _ _ _ _ Hrun)
    as [(Hnil & _ & ->)|(tloop & Hloop & _ & Hcases)].
  - rewrite Hnil. now repeat split.
  - destruct (loop_readings _ _ _ _ Hloop) as (Hr & Hp & Hd & Hg & _).
    destruct (eval_calls_readings (length (objpoints (accumulated E dir size))))
      as (Er & Eg & Ep & Ed & _).
    destruct Hcases as [(_ & _ & ->)|[(_ & _ & _ & ->)|(_ & _ & total & _ & _ & ->)]];
      rewrite glob_calls_app, imread_calls_app, progress_lines_app, detector_calls_app;
      change (Out (MsgFoundImages (length (imageFiles E dir))) :: tloop ++ ?tail)
        with ([Out (MsgFoundImages (length (imageFiles E dir)))] ++ tloop ++ tail);
      rewrite !glob_calls_app, !imread_calls_app, !progress_lines_app, !detector_calls_app,
        ?Er, ?Eg, ?Ep, ?Ed, Hr, Hp, Hd, Hg; cbn; rewrite ?app_nil_r; now repeat split.
Qed.

Lemma every_image_read_once_witness :
  imread_calls (trace_of (calibrateCamera toyWorld "./images" toySize))
    = ["./images/a.png"; "./images/b.png"; "./images/c.png"] /\
  detector_calls (trace_of (calibrateCamera toyWorld "./images" toySize)) = 3%nat.
Proof.
  assert (Hcal : calibrateCamera toyWorld "./images" toySize
                 = Some (trace_of (calibrateCamera toyWorld "./images" toySize),
                         value_of (calibrateCamera toyWorld "./images" toySize)
                                  (initialResults toySize)))
    by (vm_compute; reflexivity).
  destruct (every_image_read_once _ _ _ _ _ Hcal) as (_ & Hr & _ & Hd).
  split.
  - rewrite Hr. vm_compute. reflexivity.
  - rewrite Hd. vm_compute. reflexivity.
Defined.

(** X5. When at least one observation exists, [calibrateCamera] calls the
    solver exactly once, on one copy of the template per observation, the
    observations and the size of the first image read; the matrices and
    vectors of the record it returns are those the solver left, whether the
    solver reports success or not. *)
Theorem solver_called_once E dir size t r :
  calibrateCamera E dir size = Some (t, r) ->
  imgpoints (accumulated E dir size) <> [] ->
  solver_calls t
    = [CallCalibrateCamera (length (imgpoints (accumulated E dir size)))
         (loc_imageSize (accumulated E dir size))] /\
  exists so,
    so = cv_calibrateCamera E
           (repeat (make_objp size) (length (imgpoints (accumulated E dir size))))
           (imgpoints (accumulated E dir size))
           (loc_imageSize (accumulated E dir size)) /\
    cameraMatrix r = so_cameraMatrix so /\ distCoeffs r = so_distCoeffs so /\
    rvecs r = so_rvecs so /\ tvecs r = so_tvecs so.
Proof.
  intros Hrun Hne.
  destruct (accumulated_facts E dir size) as (Hobj & _).
  assert (Hn : length (objpoints (accumulated E dir size))
               = length (imgpoints (accumulated E dir size)))
    by now rewrite Hobj, repeat_length.
  destruct (calibrateCamera_trace _ _ _ _ _ Hrun)
    as [(Hnil & _ & _)|(tloop & Hloop & _ & Hcases)].
  - exfalso. apply Hne. destruct (accumulated_facts E dir size) as (_ & -> & _).
    unfold contributing. now rewrite Hnil.
  - destruct (loop_readings _ _ _ _ Hloop) as (_ & _ & _ & _ & Hs & _).
    destruct (eval_calls_readings (length (objpoints (accumulated E dir size))))
      as (_ & _ & _ & _ & Es & _).
    rewrite <- Hobj.
    destruct Hcases as [(Hnil & _)|[(_ & Hrms & -> & ->)|(_ & Hrms & total & _ & -> & ->)]];
      [now elim Hne| |];
      (split; [|eexists; split; [reflexivity|];
                cbn [failedResults solvedResults cameraMatrix distCoeffs rvecs tvecs];
                now repeat split]);
      rewrite solver_calls_app;
      change (Out (MsgFoundImages (length (imageFiles E dir))) :: tloop ++ ?tail)
        with ([Out (MsgFoundImages (length (imageFiles E dir)))] ++ tloop ++ tail);
      rewrite !solver_calls_app, ?Es, Hs, Hn; reflexivity.
Qed.

Lemma solver_called_once_witness :
  solver_calls (trace_of (calibrateCamera toyWorld "./images" toySize))
    = [CallCalibrateCamera 2 (mkSize 640 480)].
Proof.
  assert (Hcal : calibrateCamera toyWorld "./images" toySize
                 = Some (trace_of (calibrateCamera toyWorld "./images" toySize),
                         value_of (calibrateCamera toyWorld "./images" toySize)
                                  (initialResults toySize)))
    by (vm_compute; reflexivity).
  assert (Hne : imgpoints (accumulated toyWorld "./images" toySize) <> [])
    by (vm_compute; discriminate).
  destruct (solver_called_once _ _ _ _ _ Hcal Hne) as (Hs & _).
  rewrite Hs. vm_compute. reflexivity.
Defined.

(** X6. A calibration that fails returns a record that says so: [success]
    is false, no image is counted, the image size is 0 x 0 and the mean
    error 0.0, while the board size is the one asked for; and exactly one
    line has gone to [std::cerr], naming the stage that failed.  A
    calibration that succeeds prints nothing on [std::cerr]. *)
Theorem failure_record E dir size t r :
  calibrateCamera E dir size = Some (t, r) ->
  checkerboardSize r = size /\
  (success r = false ->
     numImagesUsed r = 0 /\ imageSize r = mkSize 0 0 /\
     meanReprojectionError r = F64.zero /\
     error_lines t
       = [if is_empty (imageFiles E dir) then MsgNoImagesFound dir
          else if is_empty (imgpoints (accumulated E dir size)) then MsgNoCornersDetected
          else MsgCalibrationFailed]) /\
  (success r = true -> error_lines t = []).
Proof.
  intros Hrun.
  destruct (calibrateCamera_trace _ _ _ _ _ Hrun)
    as [(Hnil & -> & ->)|(tloop & Hloop & Hsome & Hcases)].
  - rewrite Hnil. cbn [is_empty]. split; [reflexivity|]. split; [|discriminate].
    intros _. now repeat split.
  - destruct (loop_readings _ _ _ _ Hloop) as (_ & _ & _ & _ & _ & He & _).
    destruct (eval_calls_readings (length (objpoints (accumulated E dir size))))
      as (_ & _ & _ & _ & _ & Ee & _).
    assert (Hi : is_empty (imageFiles E dir) = false)
      by (destruct (imageFiles E dir); [now elim Hsome|reflexivity]).
    rewrite Hi.
    destruct Hcases as [(Hnone & -> & ->)|[(Hne & _ & -> & ->)|(Hne & _ & total & _ & -> & ->)]];
      (split; [reflexivity|]);
      rewrite error_lines_app;
      change (Out (MsgFoundImages (length (imageFiles E dir))) :: tloop ++ ?tail)
        with ([Out (MsgFoundImages (length (imageFiles E dir)))] ++ tloop ++ tail);
      rewrite !error_lines_app, ?Ee, He;
      cbn [failedResults solvedResults initialResults success]; (split; [|try discriminate]).
    + intros _. rewrite Hnone. now repeat split.
    + intros _. destruct (imgpoints (accumulated E dir size)); [now elim Hne|].
      now repeat split.
    + discriminate.
    + reflexivity.
Qed.

Lemma failure_record_witness :
  error_lines (trace_of (calibrateCamera perfectWorld "./images" toySize))
    = [MsgCalibrationFailed].
Proof.
  assert (Hcal : calibrateCamera perfectWorld "./images" toySize
                 = Some (trace_of (calibrateCamera perfectWorld "./images" toySize),
                         value_of (calibrateCamera perfectWorld "./images" toySize)
                                  (initialResults toySize)))
    by (vm_compute; reflexivity).
  assert (Hfail : success (value_of (calibrateCamera perfectWorld "./images" toySize)
                                    (initialResults toySize)) = false)
    by (vm_compute; reflexivity).
  destruct (failure_record _ _ _ _ _ Hcal) as (_ & Hf & _).
  destruct (Hf Hfail) as (_ & _ & _ & He).
  rewrite He. vm_compute. reflexivity.
Defined.

(** ** Running past the solver *)

(** [calibrateCamera] returns as soon as this run's solve, if it reports
    success, has left one pose per view. *)
Lemma calibrateCamera_returns_when E dir size :
  (F64.to_bool
     (so_rms (cv_calibrateCamera E (objpoints (accumulated E dir size))
                (imgpoints (accumulated E dir size))
                (loc_imageSize (accumulated E dir size)))) = true ->
   length (so_rvecs (cv_calibrateCamera E (objpoints (accumulated E dir size))
                       (imgpoints (accumulated E dir size))
                       (loc_imageSize (accumulated E dir size))))
     = length (objpoints (accumulated E dir size)) /\
   length (so_tvecs (cv_calibrateCamera E (objpoints (accumulated E dir size))
                       (imgpoints (accumulated E dir size))
                       (loc_imageSize (accumulated E dir size))))
     = length (objpoints (accumulated E dir size))) ->
  exists t r, calibrateCamera E dir size = Some (t, r).
Proof.
  intros Hposes.
  destruct (accumulated_spec E dir size) as (tloop & Hacc).
  destruct (accumulated_facts E dir size) as (Hobj & _).
  set (st := accumulated E dir size) in *.
  unfold calibrateCamera.
  rewrite !emit_bind, globAll_images, bind_value.
  destruct (is_empty (imageFiles E dir)); [eexists _, _; reflexivity|].
  rewrite ?emit_bind, Hacc, bind_value.
  destruct (is_empty (objpoints st) || is_empty (imgpoints st));
    [eexists _, _; reflexivity|].
  destruct (negb (imageSizeSet st)); [eexists _, _; reflexivity|].
  rewrite ?emit_bind. cbn [success].
  destruct (F64.to_bool (so_rms (cv_calibrateCamera E (objpoints st) (imgpoints st)
                                   (loc_imageSize st)))) eqn:Hrms;
    cbn [negb]; [|eexists _, _; reflexivity].
  destruct (Hposes eq_refl) as [Hr Ht].
  rewrite ?emit_bind, evalLoop_spec; cbn [rvecs tvecs]; try assumption.
  - eexists _, _; reflexivity.
  - cbn. lia.
  - now rewrite Hobj, repeat_length.
Qed.

Lemma readonly_silent t :
  forallb readonly t = true -> writes t = [] /\ directory_creations t = [].
Proof.
  induction t as [|e t IH]; cbn [forallb]; [now split|].
  intros [He Ht]%andb_prop. destruct (IH Ht) as [Hw Hm].
  unfold readonly in He. apply andb_prop in He as [Hwe Hme].
  destruct e as [m|m|c|d done|p doc]; cbn in Hwe, Hme; try discriminate;
    cbn [writes directory_creations flat_map app]; now split.
Qed.


(** X7. The flag [success] is the RMS value the solver returns, converted
    to [bool]: when the solver returns an RMS of exactly zero, the run
    ends with exit code 1, after the line "calibration failed" and without
    writing anything. *)
Theorem zero_rms_is_failure E cfg s :
  fs_exists E (imageDir cfg) = Some true ->
  imgpoints (accumulated E (imageDir cfg)
               (mkSize (checkerboardWidth cfg) (checkerboardHeight cfg))) <> [] ->
  so_rms (cv_calibrateCamera E
            (objpoints (accumulated E (imageDir cfg)
                          (mkSize (checkerboardWidth cfg) (checkerboardHeight cfg))))
            (imgpoints (accumulated E (imageDir cfg)
                          (mkSize (checkerboardWidth cfg) (checkerboardHeight cfg))))
            (loc_imageSize (accumulated E (imageDir cfg)
                              (mkSize (checkerboardWidth cfg) (checkerboardHeight cfg)))))
    = S754_zero s ->
  exists t,
    run E cfg = Some (t, Exit 1) /\ writes t = [] /\
    error_lines t = [MsgCalibrationFailed].
Proof.
  intros Hdir Hne Hrms.
  set (size := mkSize (checkerboardWidth cfg) (checkerboardHeight cfg)) in *.
  destruct (calibrateCamera_returns_when E (imageDir cfg) size) as (tc & r & Hcal).
  { rewrite Hrms. now destruct s. }
  destruct (calibrateCamera_cases _ _ _ _ _ Hcal) as (Hro & _ & _).
  destruct (calibrateCamera_trace _ _ _ _ _ Hcal)
    as [(Hnil & _ & _)|(tloop & Hloop & Hsome & Hcases)].
  { exfalso. apply Hne. destruct (accumulated_facts E (imageDir cfg) size) as (_ & -> & _).
    unfold contributing. now rewrite Hnil. }
  destruct (loop_readings _ _ _ _ Hloop) as (_ & _ & _ & _ & _ & He & _).
  destruct Hcases as [(Hnil & _)|[(_ & _ & Hr & Ht)|(_ & Hok & _)]].
  - now elim Hne.
  - exists (tc ++ [] ++ []).
    rewrite (run_after_calibration E cfg tc r Hdir Hcal), Hr.
    cbn [success failedResults]. split; [reflexivity|].
    rewrite !app_nil_r. split; [now apply readonly_silent|].
    rewrite Ht, error_lines_app.
    change (Out (MsgFoundImages (length (imageFiles E (imageDir cfg)))) :: tloop ++ ?tail)
      with ([Out (MsgFoundImages (length (imageFiles E (imageDir cfg))))] ++ tloop ++ tail).
    now rewrite !error_lines_app, He.
  - fold size in Hok. rewrite Hrms in Hok. now destruct s.
Qed.

Lemma zero_rms_is_failure_witness :
  exists t, run perfectWorld toyConfig = Some (t, Exit 1) /\ writes t = [].
Proof.
  assert (Hne : imgpoints (accumulated perfectWorld (imageDir toyConfig)
                  (mkSize (checkerboardWidth toyConfig) (checkerboardHeight toyConfig))) <> [])
    by (vm_compute; discriminate).
  destruct (zero_rms_is_failure perfectWorld toyConfig false eq_refl Hne eq_refl)
    as (t & Hrun & Hw & _).
  exists t. split; [exact Hrun | exact Hw].
Defined.

(** X8. A NaN is not zero: when the solver returns a NaN as RMS, and one
    pose per view, the calibration counts as a success and the run ends
    with exit code 0. *)
Theorem nan_rms_is_success E cfg :
  fs_exists E (imageDir cfg) = Some true ->
  imgpoints (accumulated E (imageDir cfg)
               (mkSize (checkerboardWidth cfg) (checkerboardHeight cfg))) <> [] ->
  so_rms (cv_calibrateCamera E
            (objpoints (accumulated E (imageDir cfg)
                          (mkSize (checkerboardWidth cfg) (checkerboardHeight cfg))))
            (imgpoints (accumulated E (imageDir cfg)
                          (mkSize (checkerboardWidth cfg) (checkerboardHeight cfg))))
            (loc_imageSize (accumulated E (imageDir cfg)
                              (mkSize (checkerboardWidth cfg) (checkerboardHeight cfg)))))
    = S754_nan ->
  solver_poses E ->
  exists tc r t,
    calibrateCamera E (imageDir cfg)
      (mkSize (checkerboardWidth cfg) (checkerboardHeight cfg)) = Some (tc, r) /\
    success r = true /\
    run E cfg = Some (t, Exit 0).
Proof.
  intros Hdir Hne Hrms Hposes.
  set (size := mkSize (checkerboardWidth cfg) (checkerboardHeight cfg)) in *.
  destruct (calibrateCamera_returns E (imageDir cfg) size Hposes) as (tc & r & Hcal).
  destruct (calibrateCamera_cases _ _ _ _ _ Hcal) as (_ & _ & Hcases).
  assert (Hok : success r = true).
  { destruct Hcases as [(Hnil & _)|[(_ & Hfail & _)|(_ & _ & te & total & _ & ->)]].
    - now elim Hne.
    - fold size in Hfail. rewrite Hrms in Hfail. discriminate.
    - reflexivity. }
  exists tc, r. eexists. split; [exact Hcal|]. split; [exact Hok|].
  rewrite (run_after_calibration E cfg tc r Hdir Hcal), Hok. reflexivity.
Qed.

Lemma nan_rms_is_success_witness :
  exists t, run nanWorld toyConfig = Some (t, Exit 0).
Proof.
  assert (Hne : imgpoints (accumulated nanWorld (imageDir toyConfig)
                  (mkSize (checkerboardWidth toyConfig) (checkerboardHeight toyConfig))) <> [])
    by (vm_compute; discriminate).
  destruct (nan_rms_is_success nanWorld toyConfig eq_refl Hne eq_refl
              (toy_solver_poses threeImages true true true S754_nan))
    as (tc & r & t & _ & _ & Hrun).
  now exists t.
Defined.

(** ** When the solver leaves too few poses *)

Lemma evalLoop_out_of_bounds E objs imgs r : forall todo i total,
  (length (rvecs r) < i + todo)%nat \/ (length (tvecs r) < i + todo)%nat ->
  (0 < todo)%nat ->
  evalLoop E objs imgs r i todo total = None.
Proof.
  induction todo as [|todo IH]; intros i total Hshort Hpos; [lia|].
  cbn [evalLoop]. unfold index.
  destruct (nth_error objs i) as [o|]; [|reflexivity].
  destruct (nth_error (rvecs r) i) as [rvec|] eqn:Hr; [|reflexivity].
  destruct (nth_error (tvecs r) i) as [tvec|] eqn:Ht; [|reflexivity].
  destruct (nth_error imgs i) as [observed|]; [|reflexivity].
  assert (Hri : (i < length (rvecs r))%nat) by (apply nth_error_Some; congruence).
  assert (Hti : (i < length (tvecs r))%nat) by (apply nth_error_Some; congruence).
  unfold ret. rewrite !bind_value, !emit_bind.
  rewrite IH; [reflexivity| |]; lia.
Qed.

(** X9. The evaluation loop indexes [rvecs] and [tvecs] up to the number of
    observations without looking at their sizes: when the solver reports
    success but has left fewer rotation or translation vectors than there
    are observations, [calibrateCamera] steps outside a vector, which the
    language leaves undefined. *)
Theorem too_few_poses_undefined E dir size :
  imgpoints (accumulated E dir size) <> [] ->
  F64.to_bool
    (so_rms (cv_calibrateCamera E (objpoints (accumulated E dir size))
               (imgpoints (accumulated E dir size))
               (loc_imageSize (accumulated E dir size)))) = true ->
  (length (so_rvecs (cv_calibrateCamera E (objpoints (accumulated E dir size))
                       (imgpoints (accumulated E dir size))
                       (loc_imageSize (accumulated E dir size))))
     < length (imgpoints (accumulated E dir size)))%nat \/
  (length (so_tvecs (cv_calibrateCamera E (objpoints (accumulated E dir size))
                       (imgpoints (accumulated E dir size))
                       (loc_imageSize (accumulated E dir size))))
     < length (imgpoints (accumulated E dir size)))%nat ->
  calibrateCamera E dir size = None.
Proof.
  intros Hne Hrms Hshort.
  destruct (accumulated_spec E dir size) as (tloop & Hacc).
  destruct (accumulated_facts E dir size) as (Hobj & Himg & Hset & _).
  set (st := accumulated E dir size) in *.
  assert (Hn : length (objpoints st) = length (imgpoints st))
    by now rewrite Hobj, repeat_length.
  assert (Himages : is_empty (imageFiles E dir) = false).
  { destruct (imageFiles E dir) eqn:Hfiles; [|reflexivity].
    exfalso. apply Hne. rewrite Himg. unfold contributing. now rewrite Hfiles. }
  assert (Hi : is_empty (imgpoints st) = false)
    by (destruct (imgpoints st); [now elim Hne|reflexivity]).
  assert (Ho : is_empty (objpoints st) = false).
  { destruct (objpoints st); [|reflexivity].
    destruct (imgpoints st); [now elim Hne|discriminate]. }
  unfold calibrateCamera.
  rewrite !emit_bind, globAll_images, bind_value, Himages.
  rewrite ?emit_bind, Hacc, bind_value, Ho, Hi, (Hset Hne). cbn [orb negb].
  rewrite ?emit_bind. cbn [success]. rewrite Hrms. cbn [negb].
  rewrite ?emit_bind, evalLoop_out_of_bounds; [reflexivity| |].
  - cbn [rvecs tvecs]. rewrite Hn. cbn [Nat.add]. exact Hshort.
  - rewrite Hn. destruct (imgpoints st); [now elim Hne|cbn; lia].
Qed.

Lemma too_few_poses_undefined_witness :
  calibrateCamera shortWorld "./images" toySize = None.
Proof.
  apply too_few_poses_undefined.
  - vm_compute. discriminate.
  - vm_compute. reflexivity.
  - left. vm_compute. lia.
Defined.

(** ** Degenerate boards *)

Lemma int_range_nonpositive n : n <= 0 -> int_range n = [].
Proof. intros Hn. unfold int_range. now replace (Z.to_nat n) with 0%nat by lia. Qed.

(** X10. With a width or a height that is zero or negative the loops that
    build the template do not run: the template is empty. *)
Theorem degenerate_board_empty_template size :
  width size <= 0 \/ height size <= 0 -> make_objp size = [].
Proof.
  intros [Hw|Hh]; rewrite make_objp_rows.
  - rewrite (int_range_nonpositive (width size) Hw).
    induction (int_range (height size)) as [|i l IH]; [reflexivity|exact IH].
  - now rewrite (int_range_nonpositive (height size) Hh).
Qed.

Lemma degenerate_board_empty_template_witness : make_objp (mkSize (-7) 10) = [].
Proof. apply degenerate_board_empty_template. left. cbn. lia. Defined.

(** ** The artifact *)

Lemma map_nth_seq {A B : Type} (f : A -> B) (d : A) (l : list A) :
  map (fun i => f (nth i l d)) (seq 0 (length l)) = map f l.
Proof.
  induction l as [|a l IH]; [reflexivity|].
  cbn [length seq map nth]. f_equal.
  rewrite <- seq_shift, map_map. exact IH.
Qed.

(** X11. The distortion coefficients of the artifact are read down the
    first column of [distCoeffs], one per row: from a column vector all the
    coefficients are written, in order; from a row vector only the first
    one is. *)
Theorem distortion_coefficients_by_rows r :
  (forall l,
     distCoeffs r = mkMat (Z.of_nat (length l)) 1 l ->
     json_field "distortion_coefficients" (json_of_results r) = Some (JArr (map JNum l))) /\
  (forall n x rest,
     distCoeffs r = mkMat 1 n (x :: rest) -> 0 < n ->
     json_field "distortion_coefficients" (json_of_results r) = Some (JArr [JNum x])).
Proof.
  split.
  - intros l HD. cbn. rewrite HD. cbn [rows]. rewrite Nat2Z.id. do 2 f_equal.
    rewrite <- (map_nth_seq JNum S754_nan l).
    apply map_ext_in. intros i Hi%in_seq. unfold mat_at. cbn [rows cols elems].
    destruct (Z.leb_spec 0 (Z.of_nat i)); [|lia].
    destruct (Z.ltb_spec (Z.of_nat i) (Z.of_nat (length l))); [|lia].
    cbn. do 2 f_equal. lia.
  - intros n x rest HD Hn. cbn. rewrite HD. cbn [rows]. cbn. do 3 f_equal.
    unfold mat_at. cbn [rows cols elems].
    destruct (Z.ltb_spec 0 n); [reflexivity|lia].
Qed.

Lemma distortion_coefficients_by_rows_witness :
  json_field "distortion_coefficients"
    (json_of_results (value_of (calibrateCamera toyWorld "./images" toySize)
                               (initialResults toySize)))
  = Some (JArr [JNum F64.zero]).
Proof.
  destruct (distortion_coefficients_by_rows
              (value_of (calibrateCamera toyWorld "./images" toySize)
                        (initialResults toySize))) as [_ Hrow].
  apply (Hrow 5 F64.zero [F64.zero; F64.zero; F64.zero; F64.zero]).
  - vm_compute. reflexivity.
  - reflexivity.
Defined.

Lemma json_column3_shape m : exists a b c, json_column3 m = JArr [JNum a; JNum b; JNum c].
Proof. now eexists _, _, _. Qed.

(** X12. The artifact of a successful calibration is consistent: it lists
    one rotation vector and one translation vector of three numbers per
    observation, its field [num_images_used] is their number, its success
    flag is true and its board dimensions are those asked for.  The solver
    is taken to leave one pose per view and the images to be at most
    [INT_MAX]. *)
Theorem artifact_lists_every_pose E dir size t r :
  solver_poses E ->
  Z.of_nat (length (imageFiles E dir)) <= INT_MAX ->
  calibrateCamera E dir size = Some (t, r) ->
  success r = true ->
  exists rotations translations,
    json_field "rotation_vectors" (json_of_results r) = Some (JArr rotations) /\
    json_field "translation_vectors" (json_of_results r) = Some (JArr translations) /\
    length rotations = length (imgpoints (accumulated E dir size)) /\
    length translations = length (imgpoints (accumulated E dir size)) /\
    Forall (fun row => exists a b c, row = JArr [JNum a; JNum b; JNum c]) rotations /\
    Forall (fun row => exists a b c, row = JArr [JNum a; JNum b; JNum c]) translations /\
    json_field "num_images_used" (json_of_results r)
      = Some (JInt (Z.of_nat (length rotations))) /\
    json_field "calibration_success" (json_of_results r) = Some (JBool true) /\
    json_field "checkerboard_dimensions_wh" (json_of_results r)
      = Some (JArr [JInt (width size); JInt (height size)]).
Proof.
  intros Hposes Hfit Hrun Hok.
  destruct (calibrateCamera_cases _ _ _ _ _ Hrun) as (_ & _ & Hcases).
  destruct (accumulated_facts E dir size) as (Hobj & _).
  pose proof (observations_bounded E dir size) as Hle.
  set (st := accumulated E dir size) in *.
  assert (Hlen : length (objpoints st) = length (imgpoints st))
    by now rewrite Hobj, repeat_length.
  destruct Hcases as [(_ & -> & _)|[(_ & _ & ->)|(_ & Hrms & teval & total & _ & ->)]];
    try discriminate.
  destruct (Hposes _ _ _ Hrms) as [Hr Ht].
  eexists _, _. split; [reflexivity|]. split; [reflexivity|].
  cbn [rvecs tvecs solvedResults]. rewrite !length_map, Hr, Ht, Hlen.
  split; [reflexivity|]. split; [reflexivity|].
  split; [apply Forall_map, Forall_forall; intros m _; apply json_column3_shape|].
  split; [apply Forall_map, Forall_forall; intros m _; apply json_column3_shape|].
  split; [|now split].
  unfold json_of_results. cbn [numImagesUsed solvedResults].
  rewrite to_int_small, Hlen by lia. reflexivity.
Qed.

Lemma artifact_lists_every_pose_witness :
  json_field "num_images_used"
    (json_of_results (value_of (calibrateCamera toyWorld "./images" toySize)
                               (initialResults toySize)))
  = Some (JInt 2).
Proof.
  assert (Hcal : calibrateCamera toyWorld "./images" toySize
                 = Some (trace_of (calibrateCamera toyWorld "./images" toySize),
                         value_of (calibrateCamera toyWorld "./images" toySize)
                                  (initialResults toySize)))
    by (vm_compute; reflexivity).
  assert (Hok : success (value_of (calibrateCamera toyWorld "./images" toySize)
                                  (initialResults toySize)) = true)
    by (vm_compute; reflexivity).
  assert (Hfit : Z.of_nat (length (imageFiles toyWorld "./images")) <= INT_MAX)
    by (vm_compute; discriminate).
  destruct (artifact_lists_every_pose toyWorld "./images" toySize _ _
              (toy_solver_poses threeImages true true true one) Hfit Hcal Hok)
    as (rotations & translations & _ & _ & Hn & _ & _ & _ & Hused & _).
  rewrite Hused, Hn. vm_compute. reflexivity.
Defined.

(** ** What a run touches *)






(** X15. The preview looks at the first image of the enumeration only: when
    that file cannot be read, one error line is printed and no window is
    opened, whatever the other images are. *)
Theorem preview_needs_first_image E r dir first rest :
  success r = true ->
  imageFiles E dir = first :: rest ->
  readable E first = false ->
  exists t,
    showUndistortedImage E r dir = Some (t, tt) /\
    imread_calls t = [first] /\
    error_lines t = [MsgCouldNotReadForUndistortion] /\
    existsb is_display_call t = false.
Proof.
  intros Hok Hfiles Hread. unfold showUndistortedImage.
  rewrite Hok. cbn [negb]. rewrite globAll_images, bind_value, Hfiles, emit_bind.
  unfold readable in Hread. apply negb_false_iff in Hread. rewrite Hread.
  eexists. split; [reflexivity|].
  rewrite imread_calls_app, error_lines_app, existsb_app. now repeat split.
Qed.

Lemma preview_needs_first_image_witness :
  exists t,
    showUndistortedImage brokenFirstWorld
      (value_of (calibrateCamera brokenFirstWorld "./images" toySize)
                (initialResults toySize)) "./images" = Some (t, tt) /\
    existsb is_display_call t = false.
Proof.
  assert (Hok : success (value_of (calibrateCamera brokenFirstWorld "./images" toySize)
                                  (initialResults toySize)) = true)
    by (vm_compute; reflexivity).
  assert (Hfiles : imageFiles brokenFirstWorld "./images"
                   = "./images/a.png" :: ["./images/b.png"])
    by (vm_compute; reflexivity).
  assert (Hread : readable brokenFirstWorld "./images/a.png" = false)
    by (vm_compute; reflexivity).
  destruct (preview_needs_first_image brokenFirstWorld _ "./images" _ _ Hok Hfiles Hread)
    as (t & Hshow & _ & _ & Hd).
  exists t. split; [exact Hshow | exact Hd].
Defined.

(** ** The exit status *)




